(** * api-cf: the request-routing and credential-rotation worker

    A shallow embedding of [cfapi/_worker.js]: path validation against
    [ROUTE_MAP], credential extraction, the D1-backed round-robin counter
    ([getNextKeyIndex]), the bounded retry loop of
    [handleRequestWithRotation], CORS stamping and the Analytics Engine
    record.

    Platform primitives are not part of the repository and are kept
    abstract: the upstream transport ([fetch]) and [JSON.parse] are
    variables of the section [Worker]; the D1 statement is modelled by the
    SQL text the worker sends.  Texts are sequences of bytes, in UTF-8.

    The constructors of the platform ([new URL], [new Headers],
    [new Response]) are taken to be total on what the worker hands them.
    Two exceptions of the platform are part of the model, because the
    retry loop raises them outside its inner [try]: [headers.set] on a
    value that is no legal header value, and [new Request] on a body that
    an earlier round has given to [fetch].  A body is taken by the first
    [fetch] it is given to, whatever the outcome of that call. *)

From Stdlib Require Import ZArith Ascii String List Bool Lia.
From stdpp Require Import gmap strings list pretty.

Set Warnings "-register-all".

Local Open Scope string_scope.
Local Open Scope Z_scope.

(** ** JavaScript strings (ASCII operations used by the worker) *)

Module JsString.

(** [s.substring(k)]: the suffix from position [k]; empty past the end. *)
Fixpoint substring_from (k : nat) (s : string) : string :=
  match k, s with
  | O, _ => s
  | S _, EmptyString => EmptyString
  | S k', String _ s' => substring_from k' s'
  end.

(** [s.startsWith(p)] *)
Fixpoint startsWith (p s : string) : bool :=
  match p, s with
  | EmptyString, _ => true
  | String _ _, EmptyString => false
  | String a p', String b s' => Ascii.eqb a b && startsWith p' s'
  end.

(** [s.split(sep)] for a one-character separator. *)
Fixpoint split (sep : ascii) (s : string) : list string :=
  match s with
  | EmptyString => [EmptyString]
  | String c s' =>
      if Ascii.eqb c sep then EmptyString :: split sep s'
      else match split sep s' with
           | [] => [String c EmptyString]
           | w :: ws => String c w :: ws
           end
  end.

Definition upper_char (c : ascii) : ascii :=
  let n := nat_of_ascii c in
  if (97 <=? n)%nat && (n <=? 122)%nat then ascii_of_nat (n - 32) else c.

Definition lower_char (c : ascii) : ascii :=
  let n := nat_of_ascii c in
  if (65 <=? n)%nat && (n <=? 90)%nat then ascii_of_nat (n + 32) else c.

Fixpoint map_chars (f : ascii -> ascii) (s : string) : string :=
  match s with
  | EmptyString => EmptyString
  | String c s' => String (f c) (map_chars f s')
  end.

(** [s.toUpperCase()] and the lower-casing of header names. *)
Definition toUpperCase : string -> string := map_chars upper_char.
Definition toLowerCase : string -> string := map_chars lower_char.

(** Truthiness of a string: non-empty. *)
Definition truthy (s : string) : bool :=
  match s with EmptyString => false | _ => true end.

End JsString.

(** ** JavaScript numbers, as far as the worker computes with them *)

Inductive jsnum : Type :=
  | NaN
  | Num (z : Z).

(** [Math.min(a, b)]: [NaN] as soon as one argument is. *)
Definition Math_min (a b : jsnum) : jsnum :=
  match a, b with
  | Num x, Num y => Num (Z.min x y)
  | _, _ => NaN
  end.

(** [a < b]: false whenever an operand is [NaN]. *)
Definition js_lt (a b : jsnum) : bool :=
  match a, b with
  | Num x, Num y => x <? y
  | _, _ => false
  end.

(** JavaScript's [%] on integers truncates towards zero, as SQLite's does. *)
Definition js_rem (a b : Z) : Z := Z.rem a b.

Module ParseInt.

(** White space and line terminators of JavaScript, as they stand in a
    text encoded in UTF-8: one byte for the ASCII ones, two for U+00A0,
    three for U+1680, U+2000 to U+200A, U+2028, U+2029, U+202F, U+205F,
    U+3000 and U+FEFF. *)
Definition is_whitespace (c : ascii) : bool :=
  let n := nat_of_ascii c in
  (n =? 32)%nat || ((9 <=? n)%nat && (n <=? 13)%nat).

Definition is_whitespace2 (a b : ascii) : bool :=
  (nat_of_ascii a =? 194)%nat && (nat_of_ascii b =? 160)%nat.

Definition is_whitespace3 (a b c : ascii) : bool :=
  let '(x, y, z) := (nat_of_ascii a, nat_of_ascii b, nat_of_ascii c) in
  ((x =? 225) && (y =? 154) && (z =? 128))%nat
  || ((x =? 226) && (y =? 128)
      && (((128 <=? z) && (z <=? 138)) || (z =? 168) || (z =? 169)
          || (z =? 175)))%nat
  || ((x =? 226) && (y =? 129) && (z =? 159))%nat
  || ((x =? 227) && (y =? 128) && (z =? 128))%nat
  || ((x =? 239) && (y =? 187) && (z =? 191))%nat.

Fixpoint trim_start (s : string) : string :=
  match s with
  | EmptyString => EmptyString
  | String a s1 =>
      if is_whitespace a then trim_start s1
      else
        match s1 with
        | String b s2 =>
            if is_whitespace2 a b then trim_start s2
            else
              match s2 with
              | String c s3 =>
                  if is_whitespace3 a b c then trim_start s3 else s
              | EmptyString => s
              end
        | EmptyString => s
        end
  end.

Definition digit_value (c : ascii) : option Z :=
  let n := nat_of_ascii c in
  if (48 <=? n)%nat && (n <=? 57)%nat then Some (Z.of_nat (n - 48))
  else if (97 <=? n)%nat && (n <=? 102)%nat then Some (Z.of_nat (n - 87))
  else if (65 <=? n)%nat && (n <=? 70)%nat then Some (Z.of_nat (n - 55))
  else None.

(** The longest prefix of radix-[r] digits; [acc] is [None] until a digit
    has been read. *)
Fixpoint digits (r : Z) (s : string) (acc : option Z) : option Z :=
  match s with
  | EmptyString => acc
  | String c s' =>
      match digit_value c with
      | Some d =>
          if d <? r then digits r s' (Some (default 0 acc * r + d))
          else acc
      | None => acc
      end
  end.

(** [parseInt(s)] with no radix argument: leading white space, a sign, an
    optional [0x] prefix, then digits; [NaN] when no digit follows.  The
    result is an exact integer here (a double in JavaScript). *)
Definition parseInt (s : string) : jsnum :=
  let s1 := trim_start s in
  let '(sign, s2) :=
    match s1 with
    | String "-" t => (-1, t)
    | String "+" t => (1, t)
    | _ => (1, s1)
    end in
  let '(radix, s3) :=
    match s2 with
    | String "0" (String "x" t) => (16, t)
    | String "0" (String "X" t) => (16, t)
    | _ => (10, s2)
    end in
  match digits radix s3 None with
  | None => NaN
  | Some m => Num (sign * m)
  end.

End ParseInt.

(** ** The rotation counter in D1 *)

(** The [DB] binding: a statement either fails with a message or runs on
    the table [rotation_state], a map from [service_name] to [next_index]. *)
Inductive D1 : Type :=
  | D1Failing (message : string)
  | D1Ready (rotation_state : gmap string Z).

(** The statement of [getNextKeyIndex]:
    [INSERT ... VALUES (?1, 1, ...) ON CONFLICT(service_name) DO UPDATE SET
     next_index = (next_index + 1) % ?2 RETURNING next_index].
    It returns the new table and the [results] rows. *)
Definition upsert_next_index (service : string) (keysCount : Z)
    (rows : gmap string Z) : gmap string Z * list Z :=
  match rows !! service with
  | None => (<[service := 1]> rows, [1])
  | Some v =>
      let v' := Z.rem (v + 1) keysCount in
      (<[service := v']> rows, [v'])
  end.

Inductive thrown (A : Type) : Type :=
  | Returned (a : A)
  | Thrown (message : string).
Arguments Returned {A} a.
Arguments Thrown {A} message.

(** [getNextKeyIndex(db, service, keysCount)], with the database after the
    call.  [results[0]?.next_index || 1] replaces a missing row and the
    value 0 by 1. *)
Definition getNextKeyIndex (db : option D1) (service : string) (keysCount : Z)
    : thrown Z * option D1 :=
  match db with
  | None => (Thrown "D1数据库未配置", db)
  | Some (D1Failing message) => (Thrown ("D1数据库错误: " +:+ message), db)
  | Some (D1Ready rows) =>
      let '(rows', results) := upsert_next_index service keysCount rows in
      let nextIndex :=
        match results with
        | v :: _ => if v =? 0 then 1 else v
        | [] => 1
        end in
      (Returned (js_rem (nextIndex - 1 + keysCount) keysCount),
       Some (D1Ready rows'))
  end.

(** [k] sequential calls for one service: the indices handed out, in
    order, and the database left behind. *)
Fixpoint advance_many (k : nat) (db : option D1) (service : string)
    (keysCount : Z) : list (thrown Z) * option D1 :=
  match k with
  | O => ([], db)
  | S k' =>
      let '(r, db1) := getNextKeyIndex db service keysCount in
      let '(rs, db2) := advance_many k' db1 service keysCount in
      (r :: rs, db2)
  end.

(** ** Values, headers, URLs, requests and responses *)

(** A JavaScript value as [JSON.parse] produces it.  An object is the list
    of its own properties; numbers are kept integral. *)
Inductive json : Type :=
  | JNull
  | JBool (b : bool)
  | JNum (z : Z)
  | JStr (s : string)
  | JArr (items : list json)
  | JObj (props : list (string * json)).

Module Js.

(** Truthiness, as tested by [!v], [v || d] and [if (v)]. *)
Definition truthy (v : json) : bool :=
  match v with
  | JNull => false
  | JBool b => b
  | JNum z => negb (z =? 0)
  | JStr s => JsString.truthy s
  | JArr _ | JObj _ => true
  end.

Definition join (sep : string) (l : list string) : string :=
  match l with
  | [] => EmptyString
  | x :: xs => fold_left (fun acc y => acc +:+ sep +:+ y) xs x
  end.

(** String conversion, as done by a template literal and by
    [headers.set]. *)
Fixpoint toString (v : json) : string :=
  match v with
  | JNull => "null"
  | JBool true => "true"
  | JBool false => "false"
  | JNum z => pretty z
  | JStr s => s
  | JArr items =>
      join "," ((fix each (l : list json) : list string :=
                   match l with
                   | [] => []
                   | JNull :: l' => EmptyString :: each l'
                   | x :: l' => toString x :: each l'
                   end) items)
  | JObj _ => "[object Object]"
  end.

(** [a[i]] read as a string; [undefined] out of range. *)
Definition element_string (a : list json) (i : Z) : string :=
  if i <? 0 then "undefined"
  else match a !! Z.to_nat i with
       | Some v => toString v
       | None => "undefined"
       end.

(** [o.name] on a parsed value: own property of an object, [undefined]
    (here [None]) on the other values; the access throws on [null]. *)
Definition get_property (v : json) (name : string) : thrown (option json) :=
  match v with
  | JNull => Thrown "Cannot read properties of null"
  | JObj props =>
      Returned (snd <$> List.find (fun p => String.eqb (fst p) name) props)
  | _ => Returned None
  end.

End Js.

(** What [Headers] does to a value it stores: HTTP white space (tab, line
    feed, carriage return, space) is stripped at both ends. *)
Module Http.

Definition is_whitespace (c : ascii) : bool :=
  let n := nat_of_ascii c in
  (n =? 9)%nat || (n =? 10)%nat || (n =? 13)%nat || (n =? 32)%nat.

Fixpoint trim_start (s : string) : string :=
  match s with
  | String c s' => if is_whitespace c then trim_start s' else s
  | EmptyString => EmptyString
  end.

Fixpoint trim_end (s : string) : string :=
  match s with
  | EmptyString => EmptyString
  | String c s' =>
      match trim_end s' with
      | EmptyString => if is_whitespace c then EmptyString
                       else String c EmptyString
      | kept => String c kept
      end
  end.

Definition normalize (s : string) : string := trim_end (trim_start s).

End Http.

(** A [Headers] object: names are case-insensitive. *)
Module Headers.

Definition t : Type := list (string * string).

Definition same_name (name : string) (entry : string * string) : bool :=
  String.eqb (JsString.toLowerCase (fst entry)) (JsString.toLowerCase name).

Definition has (h : t) (name : string) : bool :=
  existsb (same_name name) h.

(** [get]: the values of that name joined by a comma, [null] if none. *)
Definition get (h : t) (name : string) : option string :=
  match List.filter (same_name name) h with
  | [] => None
  | vs => Some (Js.join ", " (snd <$> vs))
  end.

(** The list after [set] has stored [value]: the first header of that
    name takes it and the others go; a new name is appended. *)
Fixpoint put (h : t) (name value : string) : t :=
  match h with
  | [] => [(JsString.toLowerCase name, value)]
  | e :: h' =>
      if same_name name e
      then (fst e, value)
             :: List.filter (fun e' => negb (same_name name e')) h'
      else e :: put h' name value
  end.

(** [set], for a value that the platform accepts: the value is stored
    normalised.  The values that make [set] throw are a matter of the
    platform (see [invalidHeaderValue] in the section [Worker]). *)
Definition set (h : t) (name value : string) : t :=
  put h name (Http.normalize value).

End Headers.

Record URL : Type := mkURL {
  protocol : string;
  username : string;
  password : string;
  hostname : string;
  port : string;
  pathname : string;
  searchParams : list (string * string);
  hash : string
}.

Module Url.

Definition search_get (u : URL) (name : string) : option string :=
  snd <$> List.find (fun p => String.eqb (fst p) name) (searchParams u).

Definition search_has (u : URL) (name : string) : bool :=
  existsb (fun p => String.eqb (fst p) name) (searchParams u).

Definition search_delete (u : URL) (name : string) : URL :=
  mkURL (protocol u) (username u) (password u) (hostname u) (port u)
    (pathname u)
    (List.filter (fun p => negb (String.eqb (fst p) name)) (searchParams u))
    (hash u).

(** [u.hostname = h] for a host name that parses; the port stays. *)
Definition set_hostname (u : URL) (h : string) : URL :=
  mkURL (protocol u) (username u) (password u) h (port u) (pathname u)
    (searchParams u) (hash u).

(** [u.pathname = p]: the path of an http(s) URL always starts with a
    slash.  The worker assigns a piece cut from a serialised path, which
    is kept as it is. *)
Definition set_pathname (u : URL) (p : string) : URL :=
  mkURL (protocol u) (username u) (password u) (hostname u) (port u)
    (if JsString.startsWith "/" p then p else "/" +:+ p)
    (searchParams u) (hash u).

(** [u.pathname.split('/').filter(Boolean)] *)
Definition pathSegments (u : URL) : list string :=
  List.filter JsString.truthy (JsString.split "/" (pathname u)).

End Url.

Record Request : Type := mkRequest {
  method : string;
  url : URL;
  headers : Headers.t;
  body : option string
}.

Record Response : Type := mkResponse {
  status : Z;
  statusText : string;
  responseHeaders : Headers.t;
  responseBody : option string
}.

(** [new Response(text, { status })]: a text body brings its content
    type and nothing else. *)
Definition textResponse (text : string) (code : Z) : Response :=
  mkResponse code EmptyString [("content-type", "text/plain;charset=UTF-8")] (Some text).

(** What [await fetch(request)] gives: a response, or an exception. *)
Inductive FetchOutcome : Type :=
  | Responded (r : Response)
  | Failed (message : string).

(** ** Configuration *)

Definition ROUTE_MAP : gmap string string :=
  list_to_map
    [ ("cerebras", "api.cerebras.ai");
      ("claude", "api.anthropic.com");
      ("gemini", "generativelanguage.googleapis.com");
      ("groq", "api.groq.com");
      ("openai", "api.openai.com") ].

(** [ROUTE_MAP] is an object literal: a lookup by name that finds no own
    property goes on to [Object.prototype]. *)
Definition Object_prototype : list string :=
  [ "constructor"; "__defineGetter__"; "__defineSetter__"; "hasOwnProperty";
    "__lookupGetter__"; "__lookupSetter__"; "isPrototypeOf";
    "propertyIsEnumerable"; "toString"; "valueOf"; "__proto__";
    "toLocaleString" ].

Inductive RouteEntry : Type :=
  | OwnHost (host : string)
  | Inherited
  | Undefined.

(** [ROUTE_MAP[name]] *)
Definition ROUTE_MAP_get (name : string) : RouteEntry :=
  match ROUTE_MAP !! name with
  | Some host => OwnHost host
  | None =>
      if existsb (String.eqb name) Object_prototype then Inherited
      else Undefined
  end.

Definition RouteEntry_truthy (e : RouteEntry) : bool :=
  match e with
  | OwnHost host => JsString.truthy host
  | Inherited => true
  | Undefined => false
  end.

(** The [env] object: the two bindings and the text variables. *)
Record Env : Type := mkEnv {
  LOGS : bool;
  DB : option D1;
  vars : gmap string string
}.

Definition MASTER_KEY (env : Env) : option string := vars env !! "MASTER_KEY".
Definition ROTATION_LIMIT (env : Env) : option string :=
  vars env !! "ROTATION_LIMIT".

(** A variable that is set and not the empty string. *)
Definition truthy_var (v : option string) : option string :=
  match v with
  | Some s => if JsString.truthy s then Some s else None
  | None => None
  end.

(** ** Helpers of the worker *)

(** [extractApiKey(request, service)]; [None] is [null]. *)
Definition extractApiKey (request : Request) (service : string)
    : option string :=
  if String.eqb service "gemini" then
    match truthy_var (Headers.get (headers request) "x-goog-api-key") with
    | Some k => Some k
    | None => truthy_var (Url.search_get (url request) "key")
    end
  else if String.eqb service "claude" then
    truthy_var (Headers.get (headers request) "x-api-key")
  else
    match Headers.get (headers request) "Authorization" with
    | Some authHeader =>
        if JsString.truthy authHeader
           && JsString.startsWith "Bearer " authHeader
        then Some (JsString.substring_from 7 authHeader)
        else None
    | None => None
    end.

Definition CORS_ORIGIN : string := "*".
Definition CORS_METHODS : string := "GET, POST, PUT, DELETE, PATCH, OPTIONS".
Definition CORS_HEADERS : string :=
  "Content-Type, Authorization, x-api-key, x-goog-api-key, anthropic-version, openai-organization".

(** [applyCorsHeaders(response)] *)
Definition applyCorsHeaders (response : Response) : Response :=
  if Headers.has (responseHeaders response) "Access-Control-Allow-Origin"
  then response
  else
    let h1 := Headers.set (responseHeaders response)
                "Access-Control-Allow-Origin" CORS_ORIGIN in
    let h2 := Headers.set h1 "Access-Control-Allow-Methods" CORS_METHODS in
    let h3 := Headers.set h2 "Access-Control-Allow-Headers" CORS_HEADERS in
    mkResponse (status response) (statusText response) h3
      (responseBody response).

(** [handleOptions()] *)
Definition handleOptions : Response :=
  mkResponse 204 EmptyString
    [ ("access-control-allow-origin", CORS_ORIGIN);
      ("access-control-allow-methods", CORS_METHODS);
      ("access-control-allow-headers", CORS_HEADERS) ]
    None.

(** ** The worker *)

(** One call of the upstream transport: the pool index whose key was
    injected ([None] in pass-through mode), the request sent and what came
    back. *)
Record UpstreamCall : Type := mkCall {
  keyIndex : option Z;
  sent : Request;
  outcome : FetchOutcome
}.

(** What [handleRequestWithRotation] leaves behind: its result, the
    upstream calls in order, and the counter database. *)
Record Handled : Type := mkHandled {
  result : thrown Response;
  calls : list UpstreamCall;
  database : option D1
}.

(** The record handed to [env.LOGS.writeDataPoint]. *)
Record DataPoint : Type := mkDataPoint {
  indexes : list string;
  blobs : list json;
  doubles : list Z
}.

(** What one inbound request produces. *)
Record Served : Type := mkServed {
  response : Response;
  upstreamCalls : list UpstreamCall;
  logged : list DataPoint;
  databaseAfter : option D1
}.

(** The number of rounds of [for (i = 0; i < maxRetries; i++)], whose body
    does not touch [i]: none for [NaN] and for a bound below 1. *)
Definition rounds (maxRetries : jsnum) : nat :=
  match maxRetries with
  | NaN => O
  | Num m => Z.to_nat m
  end.

(** The header in which the worker injects a pool key (lines 246-261). *)
Definition credentialHeader (service : string) : string :=
  if String.eqb service "gemini" then "x-goog-api-key"
  else if String.eqb service "claude" then "x-api-key"
  else "Authorization".

(** The value written into that header for a key. *)
Definition credentialValue (service key : string) : string :=
  if String.eqb (credentialHeader service) "Authorization"
  then "Bearer " +:+ key else key.

Section Worker.

(** [JSON.parse]: a value, or a [SyntaxError] with its message. *)
Variable JSON_parse : string -> thrown json.

(** The upstream transport: the outcome of the [n]-th call (from 0) made
    while serving one inbound request. *)
Variable upstream : nat -> Request -> FetchOutcome.

(** [Date.now()] on entry and when the record is built. *)
Variables (startTime logTime : Z).

(** [headers.set(name, value)] throws a [TypeError] on a value that is
    no legal header value; [Some message] is the message of that error. *)
Variable invalidHeaderValue : string -> option string.

(** The message of the [TypeError] that [new Request] throws when it is
    given a body that a [fetch] has already taken. *)
Variable usedBodyMessage : string.

(** The outbound request of one rotation attempt (lines 240-269), when
    neither [headers.set] nor [new Request] throws. *)
Definition rotationRequest (request : Request) (service : string)
    (url : URL) (selectedKey : string) : Request :=
  if String.eqb service "gemini" then
    mkRequest (method request)
      (if Url.search_has url "key" then Url.search_delete url "key" else url)
      (Headers.set (headers request) "x-goog-api-key" selectedKey)
      (body request)
  else if String.eqb service "claude" then
    mkRequest (method request) url
      (Headers.set (headers request) "x-api-key" selectedKey)
      (body request)
  else
    mkRequest (method request) url
      (Headers.set (headers request) "Authorization"
         ("Bearer " +:+ selectedKey))
      (body request).

(** The exception of lines 240-269, which are outside the [try] of line
    271: [headers.set] refuses the value, or [new Request] is handed
    [request.body] again after an earlier round gave it to [fetch]. *)
Definition requestFailure (bodyUsed : bool) (request : Request)
    (service selectedKey : string) : option string :=
  match invalidHeaderValue (credentialValue service selectedKey) with
  | Some message => Some message
  | None =>
      match body request with
      | Some _ => if bodyUsed then Some usedBodyMessage else None
      | None => None
      end
  end.

Definition EXHAUSTED : string := "所有API密钥均已超出配额，请稍后再试".

(** After the loop (lines 292-301). *)
Definition afterRotation (lastResponse : option Response) : Response :=
  match lastResponse with
  | Some r =>
      if status r =? 429 then applyCorsHeaders r
      else textResponse EXHAUSTED 429
  | None => textResponse EXHAUSTED 429
  end.

(** The retry loop (lines 236-290), by the rounds that remain; [made] is
    the number of upstream calls already made.  An exception of a round
    that is raised outside the inner [try] leaves the loop. *)
Fixpoint rotationLoop (request : Request) (service : string) (url : URL)
    (serviceKeys : list json) (remaining : nat) (made : nat)
    (currentIndex : Z) (lastResponse : option Response)
    : thrown Response * list UpstreamCall :=
  match remaining with
  | O => (Returned (afterRotation lastResponse), [])
  | S remaining' =>
      let selectedKey := Js.element_string serviceKeys currentIndex in
      match requestFailure (0 <? made)%nat request service selectedKey with
      | Some message => (Thrown message, [])
      | None =>
          let proxyRequest :=
            rotationRequest request service url selectedKey in
          let fetched := upstream made proxyRequest in
          let call := mkCall (Some currentIndex) proxyRequest fetched in
          let next :=
            js_rem (currentIndex + 1) (Z.of_nat (length serviceKeys)) in
          match fetched with
          | Responded r =>
              if negb (status r =? 429)
              then (Returned (applyCorsHeaders r), [call])
              else
                let '(final, rest) :=
                  rotationLoop request service url serviceKeys remaining'
                    (S made) next (Some r) in
                (final, call :: rest)
          | Failed _ =>
              let '(final, rest) :=
                rotationLoop request service url serviceKeys remaining'
                  (S made) next lastResponse in
              (final, call :: rest)
          end
      end
  end.

(** The [catch] of line 303. *)
Definition caught (outcome : thrown Response) : Response :=
  match outcome with
  | Returned r => r
  | Thrown message => textResponse ("轮询配置错误: " +:+ message) 500
  end.

Definition NO_KEYS : string := "未配置轮询api key".

(** [env.ROTATION_LIMIT ? parseInt(env.ROTATION_LIMIT) : 5] *)
Definition rotationLimit (env : Env) : jsnum :=
  match truthy_var (ROTATION_LIMIT env) with
  | Some s => ParseInt.parseInt s
  | None => Num 5
  end.

(** The rotation branch (lines 213-305), entered once the presented key
    equals the master key. *)
Definition rotate (request : Request) (service : string) (env : Env)
    (url : URL) : Handled :=
  match truthy_var (vars env !! (JsString.toUpperCase service +:+ "_KEYS")) with
  | None => mkHandled (Returned (textResponse NO_KEYS 326)) [] (DB env)
  | Some serviceKeysEnv =>
      match JSON_parse serviceKeysEnv with
      | Thrown message =>
          mkHandled
            (Returned (textResponse ("轮询配置错误: " +:+ message) 500))
            [] (DB env)
      | Returned (JArr serviceKeys) =>
          if (length serviceKeys =? 0)%nat
          then mkHandled (Returned (textResponse NO_KEYS 326)) [] (DB env)
          else
            let keysCount := Z.of_nat (length serviceKeys) in
            let maxRetries := Math_min (rotationLimit env) (Num keysCount) in
            match getNextKeyIndex (DB env) service keysCount with
            | (Thrown message, db) =>
                mkHandled
                  (Returned (textResponse ("轮询配置错误: " +:+ message) 500))
                  [] db
            | (Returned currentIndex, db) =>
                let '(final, made) :=
                  rotationLoop request service url serviceKeys
                    (rounds maxRetries) O currentIndex None in
                mkHandled (Returned (caught final)) made db
            end
      | Returned _ =>
          mkHandled (Returned (textResponse NO_KEYS 326)) [] (DB env)
      end
  end.

(** Lines 199-203: the host of the provider and the path without its
    [/service] prefix.  A value inherited from [Object.prototype] is no
    host name and the assignment leaves the host as it is. *)
Definition rewriteUrl (service : string) (url : URL) : URL :=
  let url1 :=
    match ROUTE_MAP_get service with
    | OwnHost targetHost => Url.set_hostname url targetHost
    | _ => url
    end in
  Url.set_pathname url1
    (JsString.substring_from (String.length service + 1) (pathname url1)).

(** Pass-through (lines 309-320). *)
Definition passThrough (request : Request) (env : Env) (url : URL)
    : Handled :=
  let proxyRequest :=
    mkRequest (method request) url (headers request) (body request) in
  let fetched := upstream O proxyRequest in
  let call := mkCall None proxyRequest fetched in
  match fetched with
  | Responded upstreamResponse =>
      mkHandled (Returned (applyCorsHeaders upstreamResponse)) [call] (DB env)
  | Failed message => mkHandled (Thrown message) [call] (DB env)
  end.

(** Whether the rotation branch is taken (lines 206-212). *)
Definition rotationSelected (request : Request) (service : string)
    (env : Env) : bool :=
  match truthy_var (MASTER_KEY env) with
  | Some masterKey =>
      match extractApiKey request service with
      | Some requestApiKey => String.eqb requestApiKey masterKey
      | None => false
      end
  | None => false
  end.

(** [handleRequestWithRotation(request, service, env, url)] *)
Definition handleRequestWithRotation (request : Request) (service : string)
    (env : Env) (url : URL) : Handled :=
  if String.eqb (method request) "OPTIONS"
  then mkHandled (Returned handleOptions) [] (DB env)
  else
    let url' := rewriteUrl service url in
    if rotationSelected request service env
    then rotate request service env url'
    else passThrough request env url'.

(** Lines 135-157: the model of [requestData]. *)
Definition extractModel (request : Request) (env : Env) (service : string)
    (pathSegments : list string) : json :=
  if LOGS env && String.eqb (method request) "POST" then
    if String.eqb service "gemini" then
      match pathSegments with
      | _ :: _ :: seg2 :: seg3 :: _ =>
          if String.eqb seg2 "models" then
            match JsString.split ":" seg3 with
            | name :: _ =>
                if JsString.truthy name then JStr name else JStr "unknown"
            | [] => JStr "unknown"
            end
          else JStr "unknown"
      | _ => JStr "unknown"
      end
    else
      let parsed :=
        match body request with
        | Some text =>
            match JSON_parse text with
            | Returned v => v
            | Thrown _ => JObj []
            end
        | None => JObj []
        end in
      match Js.get_property parsed "model" with
      | Returned (Some v) => if Js.truthy v then v else JStr "unknown"
      | Returned None => JStr "unknown"
      | Thrown _ => JStr "unknown"
      end
  else JStr "unknown".

(** [logRequest(env, requestData, response, startTime, error)]: the data
    points written. *)
Definition logRequest (env : Env) (service : string) (model : json)
    (response : Response) (error : option string) : list DataPoint :=
  if negb (LOGS env) then []
  else
    let latencyMs := logTime - startTime in
    let service := if JsString.truthy service then service else "unknown" in
    let model := if Js.truthy model then model else JStr "unknown" in
    [ mkDataPoint [service]
        [ JStr service; model;
          match error with Some message => JStr message | None => JNull end ]
        [ status response; latencyMs ] ].

Definition MALFORMED : string := "url格式错误".

(** The [fetch] handler of the worker. *)
Definition fetch (request : Request) (env : Env) : Served :=
  let url := url request in
  let pathSegments := Url.pathSegments url in
  match pathSegments with
  | [] => mkServed (textResponse MALFORMED 325) [] [] (DB env)
  | service :: _ =>
      if negb (RouteEntry_truthy (ROUTE_MAP_get service))
      then mkServed (textResponse MALFORMED 325) [] [] (DB env)
      else
        let model := extractModel request env service pathSegments in
        let handled := handleRequestWithRotation request service env url in
        match result handled with
        | Returned response =>
            mkServed response (calls handled)
              (if LOGS env
               then logRequest env service model response None
               else [])
              (database handled)
        | Thrown message =>
            let response :=
              textResponse
                (if JsString.truthy message then message
                 else "An unexpected error occurred.") 500 in
            mkServed response (calls handled)
              (if LOGS env
               then logRequest env service model response (Some message)
               else [])
              (database handled)
        end
  end.

End Worker.


(** ** Notions used by the statements *)

(** The path names [service] and the check of line 126 lets it through. *)
Definition routed (request : Request) (service : string) : Prop :=
  head (Url.pathSegments (url request)) = Some service
  /\ RouteEntry_truthy (ROUTE_MAP_get service) = true.

(** The request is served by the rotation branch. *)
Definition rotationMode (request : Request) (env : Env) (service : string)
    : Prop :=
  routed request service
  /\ method request <> "OPTIONS"
  /\ rotationSelected request service env = true.

(** The request is served by the pass-through branch for a provider of
    the enumeration. *)
Definition passThroughMode (request : Request) (env : Env)
    (service host : string) : Prop :=
  head (Url.pathSegments (url request)) = Some service
  /\ ROUTE_MAP !! service = Some host
  /\ method request <> "OPTIONS"
  /\ rotationSelected request service env = false.

Definition poolVariable (service : string) : string :=
  JsString.toUpperCase service +:+ "_KEYS".

(** The pool of [service] is set and parses to the non-empty array
    [keys]. *)
Definition configuredPool (JSON_parse : string -> thrown json) (env : Env)
    (service : string) (keys : list json) : Prop :=
  exists text,
    vars env !! poolVariable service = Some text
    /\ JsString.truthy text = true
    /\ JSON_parse text = Returned (JArr keys)
    /\ keys <> [].

(** The pool of [service] is unset or empty, or parses to something
    that is not a non-empty array. *)
Definition missingPool (JSON_parse : string -> thrown json) (env : Env)
    (service : string) : Prop :=
  truthy_var (vars env !! poolVariable service) = None
  \/ exists text v,
       truthy_var (vars env !! poolVariable service) = Some text
       /\ JSON_parse text = Returned v
       /\ match v with JArr (_ :: _) => False | _ => True end.

(** The call was answered with status 429. *)
Definition rateLimited (c : UpstreamCall) : Prop :=
  exists r, outcome c = Responded r /\ status r = 429.

(** [s] contains the character [c]. *)
Fixpoint has_char (c : ascii) (s : string) : bool :=
  match s with
  | EmptyString => false
  | String a s' => Ascii.eqb a c || has_char c s'
  end.


(** The text before the first colon. *)
Fixpoint beforeColon (s : string) : string :=
  match s with
  | EmptyString => EmptyString
  | String c s' => if Ascii.eqb c ":" then EmptyString
                   else String c (beforeColon s')
  end.

(** The rule as the specification words it: the segment that follows the
    first segment [models], up to its first colon. *)
Fixpoint spec_geminiModel (segments : list string) : option string :=
  match segments with
  | [] => None
  | s :: rest =>
      if String.eqb s "models" then
        match rest with
        | seg :: _ => Some (beforeColon seg)
        | [] => None
        end
      else spec_geminiModel rest
  end.

Definition UNKNOWN : json := JStr "unknown".

(** The own property [model] of a parsed body, when it is truthy. *)
Definition bodyModel (parsed : thrown json) : json :=
  match parsed with
  | Returned (JObj props) =>
      match List.find (fun p => String.eqb (fst p) "model") props with
      | Some (_, v) => if Js.truthy v then v else UNKNOWN
      | None => UNKNOWN
      end
  | _ => UNKNOWN
  end.

(** The call did not end the retry loop: it failed, or was answered with
    status 429. *)
Definition inconclusive (c : UpstreamCall) : Prop :=
  match outcome c with
  | Responded r => status r = 429
  | Failed _ => True
  end.

(** The answers among the calls, in order. *)
Fixpoint answers (calls : list UpstreamCall) : list Response :=
  match calls with
  | [] => []
  | c :: rest =>
      match outcome c with
      | Responded r => r :: answers rest
      | Failed _ => answers rest
      end
  end.

(** *** CORS headers *)

Definition ALLOW_ORIGIN : string := "Access-Control-Allow-Origin".
Definition ALLOW_METHODS : string := "Access-Control-Allow-Methods".
Definition ALLOW_HEADERS : string := "Access-Control-Allow-Headers".

(** The response carries [Access-Control-Allow-Origin]. *)
Definition carriesCors (r : Response) : Prop :=
  Headers.has (responseHeaders r) ALLOW_ORIGIN = true.

(** The three CORS headers have the permissive values. *)
Definition permissiveCors (r : Response) : Prop :=
  Headers.get (responseHeaders r) ALLOW_ORIGIN = Some CORS_ORIGIN
  /\ Headers.get (responseHeaders r) ALLOW_METHODS = Some CORS_METHODS
  /\ Headers.get (responseHeaders r) ALLOW_HEADERS = Some CORS_HEADERS.

(** ** Sample traffic *)

Module Sample.

Definition quoted (s : string) : string :=
  String (ascii_of_nat 34) s +:+ String (ascii_of_nat 34) EmptyString.

(** The text of a JSON array of strings. *)
Definition array_text (keys : list string) : string :=
  "[" +:+ Js.join "," (quoted <$> keys) +:+ "]".

Definition pool : list string := ["k1"; "k2"; "k3"].

(** The body of a chat request that names its model. *)
Definition chat_body : string :=
  "{" +:+ quoted "model" +:+ ":" +:+ quoted "gpt-4o" +:+ "}".

(** A parser that knows the texts used below and rejects the rest. *)
Definition parse (text : string) : thrown json :=
  if String.eqb text (array_text pool) then Returned (JArr (JStr <$> pool))
  else if String.eqb text "[]" then Returned (JArr [])
  else if String.eqb text "{}" then Returned (JObj [])
  else if String.eqb text "null" then Returned JNull
  else if String.eqb text chat_body
  then Returned (JObj [("model", JStr "gpt-4o")])
  else Thrown "Unexpected token".

Definition gateway (path : string) : URL :=
  mkURL "https:" EmptyString EmptyString "gw.example" EmptyString path []
    EmptyString.

Definition bearer (key : string) : Headers.t :=
  [("authorization", "Bearer " +:+ key)].

Definition get (path key : string) : Request :=
  mkRequest "GET" (gateway path) (bearer key) None.

Definition post (path key : string) (text : string) : Request :=
  mkRequest "POST" (gateway path) (bearer key) (Some text).

Definition reply (code : Z) (text : string) : Response :=
  mkResponse code EmptyString [("content-type", "application/json")]
    (Some text).

(** Every key is rate limited; the body names the key that was tried. *)
Definition always429 (n : nat) (r : Request) : FetchOutcome :=
  Responded (reply 429 (default "none" (Headers.get (headers r) "authorization"))).

Definition always200 (n : nat) (r : Request) : FetchOutcome :=
  Responded (reply 200 "ok").

(** The first call is rate limited, the second succeeds. *)
Definition second200 (n : nat) (r : Request) : FetchOutcome :=
  match n with
  | O => Responded (reply 429 "slow down")
  | _ => Responded (reply 200 "ok")
  end.

(** A platform that refuses header values with a line break in them. *)
Definition invalid (value : string) : option string :=
  if has_char "010" value || has_char "013" value
  then Some "Invalid header value." else None.

Definition used : string := "This ReadableStream is disturbed.".

Definition config (logs : bool) (db : option D1)
    (settings : list (string * string)) : Env :=
  mkEnv logs db (list_to_map settings).

(** The variables of a deployment with master key [M], the pool for
    openai, and a retry limit when one is given. *)
Definition settings (limit : option string) : list (string * string) :=
  [ ("MASTER_KEY", "M"); ("OPENAI_KEYS", array_text pool) ]
  ++ match limit with
     | Some text => [("ROTATION_LIMIT", text)]
     | None => []
     end.

(** A counter table whose row for openai holds [v]. *)
Definition counterAt (v : Z) : option D1 :=
  Some (D1Ready {[ "openai" := v ]}).

(** A limit of 2 and a counter whose next advance hands out index 1. *)
Definition rotating : Env := config true (counterAt 1) (settings (Some "2")).

End Sample.

(** Closing goals on sample data by evaluation. *)
Ltac evaluated := vm_compute; reflexivity.

Ltac sample_mode :=
  split; [split; evaluated | split; [discriminate | evaluated]].

Ltac sample_pool :=
  exists (Sample.array_text Sample.pool);
  split; [evaluated | split; [evaluated | split; [evaluated | discriminate]]].

(** ** Facts about the helpers *)

Lemma applyCorsHeaders_status (r : Response) :
  status (applyCorsHeaders r) = status r.
Proof. unfold applyCorsHeaders. by destruct (Headers.has _ _). Qed.

Lemma applyCorsHeaders_body (r : Response) :
  responseBody (applyCorsHeaders r) = responseBody r.
Proof. unfold applyCorsHeaders. by destruct (Headers.has _ _). Qed.


(** The loop test [i < maxRetries] holds exactly for the first
    [rounds maxRetries] values of the counter. *)
Lemma rounds_guard (maxRetries : jsnum) (i : nat) :
  js_lt (Num (Z.of_nat i)) maxRetries = true <-> (i < rounds maxRetries)%nat.
Proof.
  destruct maxRetries as [|m]; simpl.
  - split; [discriminate | lia].
  - rewrite Z.ltb_lt. lia.
Qed.

(** [parseInt] skips the white space of JavaScript: U+00A0 before a digit
    is no obstacle. *)
Lemma parseInt_skips_no_break_space :
  ParseInt.parseInt (String (ascii_of_nat 194) (String (ascii_of_nat 160) "2"))
  = Num 2.
Proof. reflexivity. Qed.

(** The index handed out lies in the pool, whatever the table holds. *)
Lemma getNextKeyIndex_range (db db' : option D1) (service : string)
    (n i : Z) :
  1 <= n ->
  getNextKeyIndex db service n = (Returned i, db') ->
  0 <= i < n.
Proof.
  intros Hn. unfold getNextKeyIndex, upsert_next_index, js_rem.
  destruct db as [[message|rows]|]; try discriminate.
  destruct (rows !! service) as [v|]; intros [= <- _].
  - pose proof (Z.rem_bound_abs (v + 1) n ltac:(lia)) as Hb.
    destruct (Z.rem (v + 1) n =? 0) eqn:Hz.
    + replace (1 - 1 + n) with (1 * n) by lia. rewrite Z.rem_mul; lia.
    + apply Z.eqb_neq in Hz.
      assert (0 <= Z.rem (v + 1) n - 1 + n) by lia.
      pose proof (Z.rem_bound_pos (Z.rem (v + 1) n - 1 + n) n
                    ltac:(lia) ltac:(lia)). lia.
  - simpl. replace (1 - 1 + n) with (1 * n) by lia. rewrite Z.rem_mul; lia.
Qed.

(** X18. With at least two keys and a table of non-negative counters, the
    last index of the pool is never handed out: a post-increment value of
    0 is read as 1. *)
Lemma getNextKeyIndex_never_last (rows : gmap string Z) (db' : option D1)
    (service : string) (n i : Z) :
  2 <= n ->
  (forall v, rows !! service = Some v -> 0 <= v) ->
  getNextKeyIndex (Some (D1Ready rows)) service n = (Returned i, db') ->
  i <> n - 1.
Proof.
  intros Hn Hrows. unfold getNextKeyIndex, upsert_next_index, js_rem.
  destruct (rows !! service) as [v|] eqn:Hv; intros [= <- _].
  - specialize (Hrows v eq_refl).
    pose proof (Z.rem_bound_pos (v + 1) n ltac:(lia) ltac:(lia)) as Hb.
    destruct (Z.rem (v + 1) n =? 0) eqn:Hz.
    + replace (1 - 1 + n) with (1 * n) by lia. rewrite Z.rem_mul; lia.
    + apply Z.eqb_neq in Hz.
      replace (Z.rem (v + 1) n - 1 + n) with (Z.rem (v + 1) n - 1 + 1 * n)
        by lia.
      rewrite Z.rem_add by nia. rewrite Z.rem_small by lia. lia.
  - simpl. replace (1 - 1 + n) with (1 * n) by lia. rewrite Z.rem_mul; lia.
Qed.

Section LoopFacts.

Variable upstream : nat -> Request -> FetchOutcome.
Variable invalidHeaderValue : string -> option string.
Variable usedBodyMessage : string.
Variables (request : Request) (service : string) (url : URL).
Variable serviceKeys : list json.

Local Abbreviation loop :=
  (rotationLoop upstream invalidHeaderValue usedBodyMessage request service
     url serviceKeys).
Local Abbreviation n := (Z.of_nat (length serviceKeys)).
Local Abbreviation failure :=
  (requestFailure invalidHeaderValue usedBodyMessage).
Local Abbreviation next i := (js_rem (i + 1) (Z.of_nat (length serviceKeys))).

(** One round of the loop, by what happens in it. *)
Lemma rotationLoop_round remaining made i lastResponse :
  loop (S remaining) made i lastResponse
  = match failure (0 <? made)%nat request service
            (Js.element_string serviceKeys i) with
    | Some message => (Thrown message, [])
    | None =>
        let proxyRequest :=
          rotationRequest request service url
            (Js.element_string serviceKeys i) in
        let call :=
          mkCall (Some i) proxyRequest (upstream made proxyRequest) in
        match upstream made proxyRequest with
        | Responded r =>
            if status r =? 429
            then (fst (loop remaining (S made) (next i) (Some r)),
                  call :: snd (loop remaining (S made) (next i) (Some r)))
            else (Returned (applyCorsHeaders r), [call])
        | Failed _ =>
            (fst (loop remaining (S made) (next i) lastResponse),
             call :: snd (loop remaining (S made) (next i) lastResponse))
        end
    end.
Proof.
  cbn [rotationLoop]. destruct (failure _ _ _ _); [done|]. cbv zeta.
  destruct (upstream made _) as [r|message].
  - destruct (status r =? 429); cbn [negb]; [|done].
    by destruct (rotationLoop _ _ _ _ _ _ _ _ _ _ _).
  - by destruct (rotationLoop _ _ _ _ _ _ _ _ _ _ _).
Qed.

Lemma next_in_pool i : 0 <= i < n -> 0 <= next i < n.
Proof. intros Hi. unfold js_rem. apply Z.rem_bound_pos; lia. Qed.

Lemma next_shift i (k : nat) :
  0 <= i < n -> (next i + Z.of_nat k) mod n = (i + Z.of_nat (S k)) mod n.
Proof.
  intros Hi. unfold js_rem. rewrite Z.rem_mod_nonneg by lia.
  rewrite Zplus_mod_idemp_l. f_equal. lia.
Qed.


(** The [k]-th call: its index, the request it sends, what comes back, and
    that building the request did not throw. *)
Lemma rotationLoop_call remaining made i lastResponse k c :
  0 <= i < n ->
  snd (loop remaining made i lastResponse) !! k = Some c ->
  keyIndex c = Some ((i + Z.of_nat k) mod n)
  /\ sent c = rotationRequest request service url
                (Js.element_string serviceKeys ((i + Z.of_nat k) mod n))
  /\ outcome c = upstream (made + k) (sent c)
  /\ failure (0 <? made + k)%nat request service
       (Js.element_string serviceKeys ((i + Z.of_nat k) mod n)) = None.
Proof.
  revert made i lastResponse k.
  induction remaining as [|m IH]; intros made i lastResponse k Hi.
  - simpl. by rewrite lookup_nil.
  - rewrite rotationLoop_round.
    destruct (failure _ _ _ _) eqn:Hfailure;
      [cbn [snd]; by rewrite lookup_nil|].
    cbv zeta.
    assert (Hhere : (i + Z.of_nat 0) mod n = i).
    { rewrite Z.add_0_r, Z.mod_small; lia. }
    assert (Hfirst : forall c0,
              c0 = mkCall (Some i)
                     (rotationRequest request service url
                        (Js.element_string serviceKeys i))
                     (upstream made
                        (rotationRequest request service url
                           (Js.element_string serviceKeys i))) ->
              keyIndex c0 = Some ((i + Z.of_nat 0) mod n)
              /\ sent c0 = rotationRequest request service url
                            (Js.element_string serviceKeys
                               ((i + Z.of_nat 0) mod n))
              /\ outcome c0 = upstream (made + 0) (sent c0)
              /\ failure (0 <? made + 0)%nat request service
                   (Js.element_string serviceKeys ((i + Z.of_nat 0) mod n))
                 = None).
    { intros c0 ->. rewrite Hhere, Nat.add_0_r. by cbn. }
    assert (Hlater : forall last_ k',
              snd (loop m (S made) (next i) last_) !! k' = Some c ->
              keyIndex c = Some ((i + Z.of_nat (S k')) mod n)
              /\ sent c = rotationRequest request service url
                            (Js.element_string serviceKeys
                               ((i + Z.of_nat (S k')) mod n))
              /\ outcome c = upstream (made + S k') (sent c)
              /\ failure (0 <? made + S k')%nat request service
                   (Js.element_string serviceKeys
                      ((i + Z.of_nat (S k')) mod n)) = None).
    { intros last_ k' Hk'.
      destruct (IH (S made) (next i) last_ k' (next_in_pool i Hi) Hk')
        as (H1 & H2 & H3 & H4).
      rewrite (next_shift i k' Hi) in H1, H2, H4.
      replace (S made + k')%nat with (made + S k')%nat in H3, H4 by lia.
      done. }
    destruct (upstream made _) as [r|message].
    + destruct (status r =? 429); cbn [snd].
      * destruct k as [|k]; simpl; [intros [= <-]; by apply Hfirst|].
        apply Hlater.
      * destruct k as [|k]; simpl; [intros [= <-]; by apply Hfirst|].
        by rewrite lookup_nil.
    + cbn [snd]. destruct k as [|k]; simpl; [intros [= <-]; by apply Hfirst|].
      apply Hlater.
Qed.

(** The [k]-th call uses the key at the starting index plus [k], wrapped. *)
Lemma rotationLoop_indices remaining made i lastResponse k c :
  0 <= i < n ->
  snd (loop remaining made i lastResponse) !! k = Some c ->
  keyIndex c = Some ((i + Z.of_nat k) mod n).
Proof. intros Hi Hk. by destruct (rotationLoop_call _ _ _ _ _ _ Hi Hk). Qed.


(** Each call carries the key found at its index. *)
Lemma rotationLoop_sent remaining made i lastResponse c :
  In c (snd (loop remaining made i lastResponse)) ->
  exists j,
    keyIndex c = Some j
    /\ sent c = rotationRequest request service url
                  (Js.element_string serviceKeys j).
Proof.
  revert made i lastResponse.
  induction remaining as [|m IH]; intros made i lastResponse.
  - done.
  - rewrite rotationLoop_round. destruct (failure _ _ _ _); [done|].
    cbv zeta. destruct (upstream made _) as [r0|message].
    + destruct (status r0 =? 429); cbn [snd].
      * intros [<-|Hin]; [by exists i | by eapply IH].
      * intros [<-|[]]. by exists i.
    + cbn [snd]. intros [<-|Hin]; [by exists i | by eapply IH].
Qed.

(** Why a run ends: every round was used; or a call was answered with a
    status other than 429; or building the next request threw. *)
Lemma rotationLoop_stops remaining made i lastResponse :
  0 <= i < n ->
  let run := loop remaining made i lastResponse in
  let k := length (snd run) in
  (k = remaining
   /\ Forall inconclusive (snd run)
   /\ fst run
      = Returned
          (afterRotation
             match last (answers (snd run)) with
             | Some r => Some r
             | None => lastResponse
             end))
  \/ (exists c r,
        last (snd run) = Some c
        /\ outcome c = Responded r
        /\ status r <> 429
        /\ fst run = Returned (applyCorsHeaders r))
  \/ ((k < remaining)%nat
      /\ Forall inconclusive (snd run)
      /\ exists message,
           failure (0 <? made + k)%nat request service
             (Js.element_string serviceKeys ((i + Z.of_nat k) mod n))
           = Some message
           /\ fst run = Thrown message).
Proof.
  revert made i lastResponse.
  induction remaining as [|m IH]; intros made i lastResponse Hi.
  - left. simpl. done.
  - cbv zeta. rewrite rotationLoop_round.
    assert (Hhere : (i + Z.of_nat 0) mod n = i).
    { rewrite Z.add_0_r, Z.mod_small; lia. }
    destruct (failure _ _ _ _) as [message|] eqn:Hfailure.
    { right; right. cbn [fst snd length]. split; [lia|]. split; [done|].
      exists message. by rewrite Hhere, Nat.add_0_r. }
    cbv zeta.
    assert (Hrest : forall (c : UpstreamCall) last_,
              inconclusive c ->
              last_ = match outcome c with
                      | Responded r => Some r
                      | Failed _ => lastResponse
                      end ->
              let run := loop m (S made) (next i) last_ in
              let k := length (c :: snd run) in
              (k = S m
               /\ Forall inconclusive (c :: snd run)
               /\ fst run
                  = Returned
                      (afterRotation
                         match last (answers (c :: snd run)) with
                         | Some r => Some r
                         | None => lastResponse
                         end))
              \/ (exists c' r,
                    last (c :: snd run) = Some c'
                    /\ outcome c' = Responded r
                    /\ status r <> 429
                    /\ fst run = Returned (applyCorsHeaders r))
              \/ ((k < S m)%nat
                  /\ Forall inconclusive (c :: snd run)
                  /\ exists message,
                       failure (0 <? made + k)%nat request service
                         (Js.element_string serviceKeys
                            ((i + Z.of_nat k) mod n)) = Some message
                       /\ fst run = Thrown message)).
    { intros c last_ Hc Hlast. cbv zeta.
      destruct (IH (S made) (next i) last_ (next_in_pool i Hi))
        as [(Hlen & Hall & Hfst)
           |[(c' & r & Hl & Hc' & Hr & Hfst)
            |(Hlen & Hall & message & Hmessage & Hfst)]].
      - left. cbn [length]. split; [lia|]. split; [by constructor|].
        rewrite Hfst. do 2 f_equal. subst last_. cbn [answers].
        destruct (outcome c) as [r0|m0]; [|done].
        rewrite last_cons. by destruct (last (answers _)).
      - right; left. exists c', r. split; [|done].
        destruct (snd (loop m (S made) (next i) last_)) as [|x xs];
          [discriminate|]. by rewrite last_cons_cons.
      - right; right. cbn [length]. split; [lia|]. split; [by constructor|].
        exists message. split; [|done].
        rewrite <- (next_shift i _ Hi).
        by replace (made + S (length (snd (loop m (S made) (next i)
            last_))))%nat
          with (S made + length (snd (loop m (S made) (next i) last_)))%nat
          by lia. }
    destruct (upstream made _) as [r|message] eqn:Hfetch.
    + destruct (Z.eqb_spec (status r) 429) as [H429|Hother]; cbn [fst snd].
      * by apply Hrest.
      * right; left. by eexists _, r.
    + cbn [fst snd]. by apply Hrest.
Qed.

(** The result is an answer of the upstream, stamped, the text of
    exhaustion, or an exception on its way to the [catch] of line 303. *)
Lemma rotationLoop_result remaining made i :
  fst (loop remaining made i None) = Returned (textResponse EXHAUSTED 429)
  \/ (exists c r,
        In c (snd (loop remaining made i None))
        /\ outcome c = Responded r
        /\ fst (loop remaining made i None) = Returned (applyCorsHeaders r))
  \/ exists message, fst (loop remaining made i None) = Thrown message.
Proof.
  assert (Hgen : forall remaining made i lastResponse,
    fst (loop remaining made i lastResponse)
      = Returned (afterRotation lastResponse)
    \/ (exists c r,
          In c (snd (loop remaining made i lastResponse))
          /\ outcome c = Responded r
          /\ fst (loop remaining made i lastResponse)
             = Returned (applyCorsHeaders r))
    \/ exists message, fst (loop remaining made i lastResponse)
                       = Thrown message).
  { clear remaining made i.
    induction remaining as [|m IH]; intros made i lastResponse.
    - by left.
    - rewrite rotationLoop_round.
      destruct (failure _ _ _ _) as [message|]; [right; right; eauto|].
      cbv zeta. destruct (upstream made _) as [r0|message] eqn:Hfetch.
      + destruct (Z.eqb_spec (status r0) 429) as [H429|Hother]; cbn [fst snd].
        * destruct (IH (S made) (next i) (Some r0))
            as [->|[(c & r & Hin & Hc & ->)|[message ->]]].
          -- right; left. eexists _, r0. split; [by left|]. split; [done|].
             cbn [afterRotation]. by rewrite (proj2 (Z.eqb_eq _ _) H429).
          -- right; left. exists c, r. split; [by right|]. done.
          -- right; right. eauto.
        * right; left. eexists _, r0. split; [by left|]. done.
      + cbn [fst snd].
        destruct (IH (S made) (next i) lastResponse)
          as [->|[(c & r & Hin & Hc & ->)|[msg ->]]].
        * by left.
        * right; left. exists c, r. split; [by right|]. done.
        * right; right. eauto. }
  apply (Hgen remaining made i None).
Qed.

End LoopFacts.

Section Modes.

Variable JSON_parse : string -> thrown json.
Variable upstream : nat -> Request -> FetchOutcome.
Variables (startTime logTime : Z).
Variable invalidHeaderValue : string -> option string.
Variable usedBodyMessage : string.

Lemma truthy_var_Some (v : option string) (s : string) :
  truthy_var v = Some s <-> v = Some s /\ JsString.truthy s = true.
Proof.
  unfold truthy_var. destruct v as [t|].
  - destruct (JsString.truthy t) eqn:Ht; split.
    + by intros [= ->].
    + by intros [[= ->] _].
    + discriminate.
    + intros [[= ->] H]. congruence.
  - split; [discriminate|]. by intros [? _].
Qed.

(** With a pool, the branch advances the counter and runs the loop. *)
Lemma rotate_configured request service env url keys :
  configuredPool JSON_parse env service keys ->
  rotate JSON_parse upstream invalidHeaderValue usedBodyMessage request service
      env url =
    match getNextKeyIndex (DB env) service (Z.of_nat (length keys)) with
    | (Thrown message, db) =>
        mkHandled (Returned (textResponse ("轮询配置错误: " +:+ message) 500))
          [] db
    | (Returned i, db) =>
        let run :=
          rotationLoop upstream invalidHeaderValue usedBodyMessage request
              service url keys
            (rounds (Math_min (rotationLimit env)
                       (Num (Z.of_nat (length keys))))) O i None in
        mkHandled (Returned (caught (fst run))) (snd run) db
    end.
Proof.
  intros (text & Hvar & Htruthy & Hparse & Hkeys). unfold rotate.
  fold (poolVariable service).
  rewrite (proj2 (truthy_var_Some _ _) (conj Hvar Htruthy)), Hparse.
  destruct keys as [|k keys]; [done|]. simpl length. simpl Nat.eqb. cbv iota.
  destruct (getNextKeyIndex _ _ _) as [[i|message] db]; [|done].
  by destruct (rotationLoop _ _ _ _ _ _ _ _ _).
Qed.

(** Without a pool the branch answers 326 at once. *)
Lemma rotate_missing request service env url :
  missingPool JSON_parse env service ->
  rotate JSON_parse upstream invalidHeaderValue usedBodyMessage request service
      env url =
    mkHandled (Returned (textResponse NO_KEYS 326)) [] (DB env).
Proof.
  unfold rotate. fold (poolVariable service).
  intros [->|(text & v & -> & -> & Hv)]; [done|].
  destruct v as [| | | |[|k keys]|]; done.
Qed.

(** The shapes of a run of the rotation branch. *)
Lemma rotate_cases request service env url :
  let handled := rotate JSON_parse upstream invalidHeaderValue usedBodyMessage
      request service env url in
  (calls handled = []
   /\ exists text code,
        result handled = Returned (textResponse text code)
        /\ (code = 326 \/ code = 500))
  \/ (exists keys i db,
        configuredPool JSON_parse env service keys
        /\ getNextKeyIndex (DB env) service (Z.of_nat (length keys))
           = (Returned i, db)
        /\ handled =
             let run :=
               rotationLoop upstream invalidHeaderValue usedBodyMessage request
                   service url keys
                 (rounds (Math_min (rotationLimit env)
                            (Num (Z.of_nat (length keys))))) O i None in
             mkHandled (Returned (caught (fst run))) (snd run) db).
Proof.
  intros handled. subst handled.
  destruct (truthy_var (vars env !! poolVariable service)) as [text|] eqn:Hvar.
  - destruct (JSON_parse text) as [v|message] eqn:Hparse.
    + assert (Hshape : (exists k keys, v = JArr (k :: keys))
                       \/ match v with JArr (_ :: _) => False | _ => True end).
      { destruct v as [| | | |[|k keys]|]; eauto. }
      destruct Hshape as [(k & keys & ->)|Hno].
      * assert (Hpool : configuredPool JSON_parse env service (k :: keys)).
        { apply truthy_var_Some in Hvar as [Hvar Ht]. by exists text. }
        rewrite (rotate_configured _ _ _ _ _ Hpool).
        destruct (getNextKeyIndex _ _ _) as [[i|message] db] eqn:Hnext.
        -- right. exists (k :: keys), i, db. by rewrite Hnext.
        -- left. split; [done|]. eexists _, 500. eauto.
      * left. rewrite rotate_missing.
        -- split; [done|]. eexists _, 326. eauto.
        -- right. by exists text, v.
    + left. unfold rotate. fold (poolVariable service).
      rewrite Hvar, Hparse. split; [done|]. eexists _, 500. eauto.
  - left. rewrite rotate_missing by by left.
    split; [done|]. eexists _, 326. eauto.
Qed.

(** The rotation branch never throws. *)
Lemma rotate_returns request service env url :
  exists r, result (rotate JSON_parse upstream invalidHeaderValue
      usedBodyMessage request service env url)
            = Returned r.
Proof.
  destruct (rotate_cases request service env url)
    as [(_ & text & code & -> & _)|(keys & i & db & _ & _ & ->)]; eauto.
Qed.

(** A request in rotation mode is served by the rotation branch. *)
Lemma fetch_rotationMode request env service :
  rotationMode request env service ->
  exists r,
    let handled :=
      rotate JSON_parse upstream invalidHeaderValue usedBodyMessage request
          service env
        (rewriteUrl service (url request)) in
    result handled = Returned r
    /\ fetch JSON_parse upstream startTime logTime invalidHeaderValue
        usedBodyMessage request env =
         mkServed r (calls handled)
           (if LOGS env
            then logRequest startTime logTime env service
                   (extractModel JSON_parse request env service
                      (Url.pathSegments (url request))) r None
            else [])
           (database handled).
Proof.
  intros [[Hhead Hroute] [Hmethod Hsel]].
  destruct (rotate_returns request service env
              (rewriteUrl service (url request))) as [r Hr].
  exists r. split; [done|]. unfold fetch.
  destruct (Url.pathSegments (url request)) as [|s rest] eqn:Hseg;
    [done|]. injection Hhead as ->.
  rewrite Hroute. cbn [negb]. unfold handleRequestWithRotation.
  destruct (String.eqb_spec (method request) "OPTIONS"); [done|].
  by rewrite Hsel, Hr.
Qed.

End Modes.

(** ** The retry loop of the rotation branch *)


(** C10, amended. In rotation mode with a pool, when [ROTATION_LIMIT] is a
    text on which [parseInt] gives [NaN], no upstream call is made; the
    response is the text of exhaustion with status 429 when the counter
    advance returns, and the configuration error with status 500 when it
    throws. *)
Theorem rotation_limit_NaN
    (JSON_parse : string -> thrown json)
    (upstream : nat -> Request -> FetchOutcome) (startTime logTime : Z)
    (invalidHeaderValue : string -> option string) (usedBodyMessage : string)
    (request : Request) (env : Env) (service : string) (keys : list json)
    (limit : string) :
  let served := fetch JSON_parse upstream startTime logTime invalidHeaderValue
      usedBodyMessage request env in
  rotationMode request env service ->
  configuredPool JSON_parse env service keys ->
  truthy_var (ROTATION_LIMIT env) = Some limit ->
  ParseInt.parseInt limit = NaN ->
  upstreamCalls served = []
  /\ match fst (getNextKeyIndex (DB env) service (Z.of_nat (length keys))) with
     | Returned _ => response served = textResponse EXHAUSTED 429
     | Thrown message =>
         response served = textResponse ("轮询配置错误: " +:+ message) 500
     end.
Proof.
  intros served Hmode Hpool Hlimit HNaN. subst served.
  destruct (fetch_rotationMode JSON_parse upstream startTime logTime
      invalidHeaderValue usedBodyMessage
              request env service Hmode) as (r0 & Hr0 & ->).
  cbn [upstreamCalls response].
  rewrite (rotate_configured _ _ _ _ _ _ _ _ _ Hpool) in Hr0 |- *.
  unfold rotationLimit in Hr0 |- *. rewrite Hlimit, HNaN in Hr0 |- *.
  cbn [Math_min rounds rotationLoop fst snd afterRotation] in Hr0 |- *.
  destruct (getNextKeyIndex _ _ _) as [[i|message] db];
    cbn [result calls fst] in *; injection Hr0 as <-; done.
Qed.

(** *** Runs of the sample deployment *)


Lemma rotation_limit_NaN_witness :
  let request := Sample.get "/openai/v1/models" "M" in
  let env := Sample.config true (Sample.counterAt 1)
               (Sample.settings (Some "abc")) in
  let served := fetch Sample.parse Sample.always200 0 30 Sample.invalid
      Sample.used request env in
  ParseInt.parseInt "abc" = NaN
  /\ upstreamCalls served = []
  /\ response served = textResponse EXHAUSTED 429.
Proof.
  intros request env served.
  assert (Hmode : rotationMode request env "openai") by sample_mode.
  assert (Hpool : configuredPool Sample.parse env "openai"
                    (JStr <$> Sample.pool)) by sample_pool.
  assert (Hlimit : truthy_var (ROTATION_LIMIT env) = Some "abc") by evaluated.
  assert (HNaN : ParseInt.parseInt "abc" = NaN) by evaluated.
  destruct (rotation_limit_NaN Sample.parse Sample.always200 0 30
      Sample.invalid Sample.used request env
              "openai" (JStr <$> Sample.pool) "abc" Hmode Hpool Hlimit HNaN)
    as (Hcalls & Hresponse).
  split; [exact HNaN|]. split; [exact Hcalls | exact Hresponse].
Defined.

(** C10 as stated fails when the counter cannot be advanced: with the
    [DB] binding missing the same request is answered with status 500. *)
Lemma rotation_limit_NaN_without_counter :
  let request := Sample.get "/openai/v1/models" "M" in
  let env := Sample.config true None (Sample.settings (Some "abc")) in
  let served := fetch Sample.parse Sample.always200 0 30 Sample.invalid
      Sample.used request env in
  rotationMode request env "openai"
  /\ configuredPool Sample.parse env "openai" (JStr <$> Sample.pool)
  /\ ParseInt.parseInt "abc" = NaN
  /\ upstreamCalls served = []
  /\ status (response served) = 500
  /\ responseBody (response served) = Some "轮询配置错误: D1数据库未配置"
  /\ status (response served) <> 429.
Proof.
  intros request env served.
  split; [sample_mode|]. split; [sample_pool|].
  split; [evaluated|]. split; [evaluated|]. split; [evaluated|].
  split; [evaluated|]. vm_compute. discriminate.
Qed.

(** ** The counter *)

(** C2. Three sequential advances over a pool of three keys, from an
    empty table: the third one stores the post-increment value 0, which
    [|| 1] reads as 1, so index 0 comes back in place of index 2; with
    two keys every advance hands out index 0. *)
Theorem getNextKeyIndex_three_advances :
  advance_many 3 (Some (D1Ready ∅)) "openai" 3
    = ([Returned 0; Returned 1; Returned 0],
       Some (D1Ready {[ "openai" := 0 ]}))
  /\ fst (advance_many 4 (Some (D1Ready ∅)) "openai" 2)
     = [Returned 0; Returned 0; Returned 0; Returned 0].
Proof. split; evaluated. Qed.

(** ** Path validation *)

Lemma segment_truthy (segments : list string) (s : string) :
  head (List.filter JsString.truthy segments) = Some s ->
  JsString.truthy s = true.
Proof.
  induction segments as [|x xs IH]; simpl; [discriminate|].
  destruct (JsString.truthy x) eqn:Hx; simpl; [|exact IH].
  by intros [= <-].
Qed.

(** X17. A path without segments, or whose first segment is neither a
    provider nor a name found on [Object.prototype], is answered 325 with
    no upstream call and no record. *)
Lemma fetch_rejects_unknown_segment
    (JSON_parse : string -> thrown json)
    (upstream : nat -> Request -> FetchOutcome) (startTime logTime : Z)
    (invalidHeaderValue : string -> option string) (usedBodyMessage : string)
    (request : Request) (env : Env) :
  match head (Url.pathSegments (url request)) with
  | None => True
  | Some s => ROUTE_MAP_get s = Undefined
  end ->
  fetch JSON_parse upstream startTime logTime invalidHeaderValue
      usedBodyMessage request env
    = mkServed (textResponse MALFORMED 325) [] [] (DB env).
Proof.
  unfold fetch. destruct (Url.pathSegments (url request)) as [|s rest]; simpl.
  - done.
  - by intros ->.
Qed.

(** C5. The first segment [constructor] is no provider, yet [ROUTE_MAP]
    inherits a value of that name: the request passes line 126, one
    upstream call is made to the gateway's own host, its answer is
    returned and a record is written. *)
Theorem fetch_inherited_route :
  let request := Sample.get "/constructor/v1/models" "sk-user" in
  let env := Sample.config true None [] in
  let served := fetch Sample.parse Sample.always200 0 30 Sample.invalid
      Sample.used request env in
  ROUTE_MAP !! "constructor" = None
  /\ ROUTE_MAP_get "constructor" = Inherited
  /\ status (response served) = 200
  /\ (url ∘ sent) <$> upstreamCalls served
     = [Sample.gateway "/v1/models"]
  /\ logged served
     = [mkDataPoint ["constructor"]
          [JStr "constructor"; JStr "unknown"; JNull] [200; 30]].
Proof. repeat split; evaluated. Qed.

(** ** Rotation without a pool *)

Lemma extractModel_truthy (JSON_parse : string -> thrown json)
    (request : Request) (env : Env) (service : string)
    (segments : list string) :
  Js.truthy (extractModel JSON_parse request env service segments) = true.
Proof.
  unfold extractModel.
  destruct (LOGS env && String.eqb (method request) "POST"); [|done].
  destruct (String.eqb service "gemini").
  - destruct segments as [|s0 [|s1 [|s2 [|s3 rest]]]]; try done.
    destruct (String.eqb s2 "models"); [|done].
    destruct (JsString.split ":" s3) as [|name names]; [done|].
    by destruct (JsString.truthy name) eqn:Hname.
  - destruct (Js.get_property _ _) as [[v|]|message]; try done.
    by destruct (Js.truthy v) eqn:Hv.
Qed.

(** The record written when the binding is there. *)
Lemma logRequest_written (startTime logTime : Z) (env : Env)
    (service : string) (model : json) (r : Response) (error : option string) :
  LOGS env = true ->
  JsString.truthy service = true ->
  Js.truthy model = true ->
  logRequest startTime logTime env service model r error
    = [mkDataPoint [service]
         [JStr service; model;
          match error with Some message => JStr message | None => JNull end]
         [status r; logTime - startTime]].
Proof. intros Hlogs Hs Hm. unfold logRequest. by rewrite Hlogs, Hs, Hm. Qed.

(** C6, amended. In rotation mode without a usable pool the response is
    326 and no upstream call is made; the request is recorded exactly when
    the [LOGS] binding is present, with status 326. *)
Theorem rotation_without_pool
    (JSON_parse : string -> thrown json)
    (upstream : nat -> Request -> FetchOutcome) (startTime logTime : Z)
    (invalidHeaderValue : string -> option string) (usedBodyMessage : string)
    (request : Request) (env : Env) (service : string) :
  let served := fetch JSON_parse upstream startTime logTime invalidHeaderValue
      usedBodyMessage request env in
  rotationMode request env service ->
  missingPool JSON_parse env service ->
  response served = textResponse NO_KEYS 326
  /\ status (response served) = 326
  /\ upstreamCalls served = []
  /\ logged served
     = if LOGS env
       then [mkDataPoint [service]
               [JStr service;
                extractModel JSON_parse request env service
                  (Url.pathSegments (url request));
                JNull]
               [326; logTime - startTime]]
       else [].
Proof.
  intros served Hmode Hmissing. subst served.
  destruct (fetch_rotationMode JSON_parse upstream startTime logTime
      invalidHeaderValue usedBodyMessage
              request env service Hmode) as (r & Hr & ->).
  rewrite (rotate_missing _ _ _ _ _ _ _ _ Hmissing) in Hr |- *.
  cbn [result calls response upstreamCalls logged] in *.
  injection Hr as <-. split_and!; try done.
  destruct (LOGS env) eqn:Hlogs; [|done].
  apply (logRequest_written startTime logTime env service _
           (textResponse NO_KEYS 326) None);
    [done| |apply extractModel_truthy].
  destruct Hmode as [[Hhead _] _]. by apply segment_truthy in Hhead.
Qed.

Lemma rotation_without_pool_witness :
  let request := Sample.get "/openai/v1/models" "M" in
  let env := Sample.config false (Sample.counterAt 1) [("MASTER_KEY", "M")] in
  let served := fetch Sample.parse Sample.always200 0 30 Sample.invalid
      Sample.used request env in
  status (response served) = 326
  /\ upstreamCalls served = []
  /\ logged served = [].
Proof.
  intros request env served.
  assert (Hmode : rotationMode request env "openai") by sample_mode.
  assert (Hmissing : missingPool Sample.parse env "openai")
    by (left; evaluated).
  destruct (rotation_without_pool Sample.parse Sample.always200 0 30
      Sample.invalid Sample.used request
              env "openai" Hmode Hmissing) as (_ & Hstatus & Hcalls & Hlog).
  split; [exact Hstatus|]. split; [exact Hcalls | exact Hlog].
Defined.

(** C6 as stated fails on the record: with [LOGS] bound, the 326 response
    is handed to [logRequest] like any other. *)
Lemma rotation_without_pool_is_logged :
  let request := Sample.get "/openai/v1/models" "M" in
  let env := Sample.config true (Sample.counterAt 1) [("MASTER_KEY", "M")] in
  let served := fetch Sample.parse Sample.always200 0 30 Sample.invalid
      Sample.used request env in
  rotationMode request env "openai"
  /\ vars env !! poolVariable "openai" = None
  /\ status (response served) = 326
  /\ upstreamCalls served = []
  /\ logged served
     = [mkDataPoint ["openai"] [JStr "openai"; JStr "unknown"; JNull]
          [326; 30]]
  /\ logged served <> [].
Proof.
  intros request env served.
  split; [sample_mode|]. split; [evaluated|]. split; [evaluated|].
  split; [evaluated|]. split; [evaluated|]. vm_compute. discriminate.
Qed.

(** ** Pass-through *)















(** ** CORS headers *)

Lemma lower_char_idempotent (c : ascii) :
  JsString.lower_char (JsString.lower_char c) = JsString.lower_char c.
Proof. destruct c as [[] [] [] [] [] [] [] []]; reflexivity. Qed.

Lemma toLowerCase_idempotent (s : string) :
  JsString.toLowerCase (JsString.toLowerCase s) = JsString.toLowerCase s.
Proof.
  unfold JsString.toLowerCase.
  induction s as [|c s IH]; simpl; [done|].
  by rewrite lower_char_idempotent, IH.
Qed.

Lemma Headers_get_has (h : Headers.t) (name value : string) :
  Headers.get h name = Some value -> Headers.has h name = true.
Proof.
  unfold Headers.get, Headers.has.
  destruct (List.filter _ _) as [|e es] eqn:Hfilter; [discriminate|].
  intros _. apply existsb_exists. exists e.
  apply (filter_In (Headers.same_name name)). rewrite Hfilter. by left.
Qed.

Section HeaderFacts.

Variables (name value : string).

Lemma filter_same_without (h : Headers.t) :
  List.filter (Headers.same_name name) (List.filter (fun e => negb
      (Headers.same_name name e)) h) = [].
Proof.
  induction h as [|e h IH]; simpl; [done|].
  destruct (Headers.same_name name e) eqn:He; simpl; [done|]. by rewrite He.
Qed.

(** After [put], exactly one header of that name is left, with the new
    value. *)
Lemma filter_same_put (h : Headers.t) :
  exists written, List.filter (Headers.same_name name) (Headers.put h name
      value)
                  = [(written, value)].
Proof.
  induction h as [|e h IH]; simpl.
  - exists (JsString.toLowerCase name). unfold Headers.same_name. simpl.
    by rewrite toLowerCase_idempotent, String.eqb_refl.
  - destruct (Headers.same_name name e) eqn:He; simpl.
    + exists (fst e).
      assert (Hsame : Headers.same_name name (fst e, value) = true)
        by exact He.
      by rewrite Hsame, filter_same_without.
    + by rewrite He.
Qed.

Lemma Headers_get_put (h : Headers.t) :
  Headers.get (Headers.put h name value) name = Some value.
Proof.
  unfold Headers.get. by destruct (filter_same_put h) as [written ->].
Qed.

Lemma Headers_has_put (h : Headers.t) :
  Headers.has (Headers.put h name value) name = true.
Proof.
  unfold Headers.has. destruct (filter_same_put h) as [written Hset].
  apply existsb_exists. exists (written, value).
  apply (filter_In (Headers.same_name name)). rewrite Hset. by left.
Qed.

Variable other : string.
Hypothesis different :
  JsString.toLowerCase name <> JsString.toLowerCase other.

Lemma same_name_exclusive (e : string * string) :
  Headers.same_name other e = true -> Headers.same_name name e = false.
Proof.
  unfold Headers.same_name.
  intros Ho%String.eqb_eq. apply String.eqb_neq. congruence.
Qed.

(** [put] leaves the headers of other names as they are. *)
Lemma filter_other_put (h : Headers.t) :
  List.filter (Headers.same_name other) (Headers.put h name value)
  = List.filter (Headers.same_name other) h.
Proof.
  induction h as [|e h IH]; simpl.
  - unfold Headers.same_name at 1. simpl. rewrite toLowerCase_idempotent.
    by rewrite (proj2 (String.eqb_neq _ _) different).
  - destruct (Headers.same_name name e) eqn:He; simpl.
    + assert (Hwritten : Headers.same_name other (fst e, value) = false).
      { destruct (Headers.same_name other (fst e, value)) eqn:Ho; [|done].
        apply same_name_exclusive in Ho.
        unfold Headers.same_name in Ho, He. simpl in Ho. congruence. }
      assert (Hkept : Headers.same_name other e = false).
      { destruct (Headers.same_name other e) eqn:Ho; [|done].
        apply same_name_exclusive in Ho. congruence. }
      rewrite Hwritten, Hkept. clear IH He Hwritten Hkept.
      induction h as [|e' h IH]; simpl; [done|].
      destruct (Headers.same_name other e') eqn:Ho.
      * rewrite (same_name_exclusive _ Ho). simpl. by rewrite Ho, IH.
      * destruct (Headers.same_name name e'); simpl; [done|].
        by rewrite Ho.
    + by rewrite IH.
Qed.

Lemma Headers_get_put_other (h : Headers.t) :
  Headers.get (Headers.put h name value) other = Headers.get h other.
Proof. unfold Headers.get. by rewrite filter_other_put. Qed.

End HeaderFacts.

(** [set] stores the value without its outer white space. *)
Lemma Headers_get_set (name value : string) (h : Headers.t) :
  Headers.get (Headers.set h name value) name = Some (Http.normalize value).
Proof. apply Headers_get_put. Qed.

Lemma Headers_has_set (name value : string) (h : Headers.t) :
  Headers.has (Headers.set h name value) name = true.
Proof. apply Headers_has_put. Qed.

Lemma Headers_get_set_other (name value other : string)
    (different : JsString.toLowerCase name <> JsString.toLowerCase other)
    (h : Headers.t) :
  Headers.get (Headers.set h name value) other = Headers.get h other.
Proof. by apply Headers_get_put_other. Qed.

(** What [applyCorsHeaders] leaves on a response. *)
Lemma applyCorsHeaders_spec (r : Response) :
  carriesCors (applyCorsHeaders r)
  /\ (Headers.has (responseHeaders r) ALLOW_ORIGIN = false ->
      permissiveCors (applyCorsHeaders r))
  /\ (Headers.has (responseHeaders r) ALLOW_ORIGIN = true ->
      applyCorsHeaders r = r).
Proof.
  unfold carriesCors, permissiveCors, applyCorsHeaders. fold ALLOW_ORIGIN.
  destruct (Headers.has (responseHeaders r) ALLOW_ORIGIN) eqn:Hhas.
  - split; [done|]. split; [discriminate | done].
  - cbn [responseHeaders].
    assert (Horigin : Headers.get
              (Headers.set
                 (Headers.set
                    (Headers.set (responseHeaders r) ALLOW_ORIGIN CORS_ORIGIN)
                    ALLOW_METHODS CORS_METHODS) ALLOW_HEADERS CORS_HEADERS)
              ALLOW_ORIGIN = Some CORS_ORIGIN).
    { rewrite !Headers_get_set_other by (vm_compute; discriminate).
      by rewrite Headers_get_set. }
    split; [|split; [intros _; split_and! | discriminate]].
    + exact (Headers_get_has _ _ _ Horigin).
    + exact Horigin.
    + rewrite Headers_get_set_other by (vm_compute; discriminate).
      by rewrite Headers_get_set.
    + by rewrite Headers_get_set.
Qed.

(** X19. Stamping twice is stamping once. *)
Lemma applyCorsHeaders_idempotent (r : Response) :
  applyCorsHeaders (applyCorsHeaders r) = applyCorsHeaders r.
Proof.
  destruct (applyCorsHeaders_spec (applyCorsHeaders r)) as (_ & _ & Hsame).
  apply Hsame. apply applyCorsHeaders_spec.
Qed.

(** C8, amended. A response is of one of three kinds.  The answer to
    [OPTIONS] carries the permissive CORS headers.  An answer of the
    upstream is returned through [applyCorsHeaders]: it carries
    [Access-Control-Allow-Origin], with the three permissive values when
    the upstream sent none, and untouched when it sent one.  A response
    the worker writes itself (325, 326, 429 on exhaustion, 500) is a text
    with no CORS header. *)
Theorem cors_by_origin_of_response
    (JSON_parse : string -> thrown json)
    (upstream : nat -> Request -> FetchOutcome) (startTime logTime : Z)
    (invalidHeaderValue : string -> option string) (usedBodyMessage : string)
    (request : Request) (env : Env) :
  let served := fetch JSON_parse upstream startTime logTime invalidHeaderValue
      usedBodyMessage request env in
  (response served = handleOptions /\ permissiveCors (response served))
  \/ (exists c r,
        In c (upstreamCalls served)
        /\ outcome c = Responded r
        /\ response served = applyCorsHeaders r
        /\ carriesCors (response served)
        /\ (Headers.has (responseHeaders r) ALLOW_ORIGIN = false ->
            permissiveCors (response served))
        /\ (Headers.has (responseHeaders r) ALLOW_ORIGIN = true ->
            response served = r))
  \/ (exists text code,
        response served = textResponse text code
        /\ (code = 325 \/ code = 326 \/ code = 429 \/ code = 500)
        /\ Headers.has (responseHeaders (response served)) ALLOW_ORIGIN
           = false).
Proof.
  intros served. subst served.
  assert (Hupstream : forall (c : UpstreamCall) (r : Response) calls_,
            In c calls_ -> outcome c = Responded r ->
            exists c r0,
              In c calls_ /\ outcome c = Responded r0
              /\ applyCorsHeaders r = applyCorsHeaders r0
              /\ carriesCors (applyCorsHeaders r)
              /\ (Headers.has (responseHeaders r0) ALLOW_ORIGIN = false ->
                  permissiveCors (applyCorsHeaders r))
              /\ (Headers.has (responseHeaders r0) ALLOW_ORIGIN = true ->
                  applyCorsHeaders r = r0)).
  { intros c r calls_ Hin Hc. exists c, r.
    destruct (applyCorsHeaders_spec r) as (H1 & H2 & H3). by split_and!. }
  unfold fetch.
  destruct (Url.pathSegments (url request)) as [|service segments].
  { right; right. exists MALFORMED, 325. split_and!; auto. }
  destruct (RouteEntry_truthy (ROUTE_MAP_get service)); cbn [negb].
  2: { right; right. exists MALFORMED, 325. split_and!; auto. }
  unfold handleRequestWithRotation.
  destruct (String.eqb (method request) "OPTIONS").
  { left. cbn. split; [done|]. by split_and!. }
  destruct (rotationSelected request service env).
  - destruct (rotate_cases JSON_parse upstream invalidHeaderValue
      usedBodyMessage request service env
                (rewriteUrl service (url request)))
      as [(Hnone & text & code & -> & Hcode)|(keys & i & db & _ & _ & ->)].
    + right; right. cbn. exists text, code. split_and!; [done| |done].
      destruct Hcode as [->| ->]; auto.
    + cbn.
      destruct (rotationLoop_result upstream invalidHeaderValue
                  usedBodyMessage request service
                  (rewriteUrl service (url request)) keys
                  (rounds (Math_min (rotationLimit env)
                             (Num (Z.of_nat (length keys))))) O i)
        as [->|[(c & r & Hin & Hc & ->)|[message ->]]]; cbn [caught].
      * right; right. exists EXHAUSTED, 429. split_and!; auto.
      * right; left. by apply (Hupstream c r).
      * right; right. eexists _, 500. split_and!; auto.
  - unfold passThrough.
    destruct (upstream O _) as [r|message] eqn:Hfetched;
      cbn [result calls response upstreamCalls].
    + right; left. eapply Hupstream; [by left | done].
    + right; right. eexists _, 500. split_and!; auto.
Qed.

(** C8 as stated fails on the responses the worker writes itself: the 325
    and 326 responses have a content type and no CORS header. *)
Lemma error_responses_lack_cors :
  let env := Sample.config true (Sample.counterAt 1) [("MASTER_KEY", "M")] in
  let malformed :=
    fetch Sample.parse Sample.always200 0 30 Sample.invalid Sample.used
        (Sample.get "/" "M") env in
  let unconfigured :=
    fetch Sample.parse Sample.always200 0 30 Sample.invalid Sample.used
      (Sample.get "/openai/v1/models" "M") env in
  status (response malformed) = 325
  /\ Headers.get (responseHeaders (response malformed)) ALLOW_ORIGIN = None
  /\ responseHeaders (response malformed)
     = [("content-type", "text/plain;charset=UTF-8")]
  /\ status (response unconfigured) = 326
  /\ Headers.get (responseHeaders (response unconfigured)) ALLOW_ORIGIN = None
  /\ ~ carriesCors (response malformed)
  /\ ~ carriesCors (response unconfigured).
Proof.
  intros env malformed unconfigured.
  split; [evaluated|]. split; [evaluated|]. split; [evaluated|].
  split; [evaluated|]. split; [evaluated|].
  split; vm_compute; discriminate.
Qed.

(** ** The model of the record *)

Lemma split_colon_head (s : string) :
  head (JsString.split ":" s) = Some (beforeColon s).
Proof.
  induction s as [|c s IH]; simpl; [done|].
  destruct (Ascii.eqb c ":"); [done|].
  destruct (JsString.split ":" s) as [|w ws]; [discriminate|].
  simpl in *. by injection IH as ->.
Qed.

(** C9, amended. With [LOGS] bound, a routed request writes one record,
    whatever happens upstream.  Its model is ["unknown"] unless the method
    is POST.  For a POST to gemini it is the fourth path segment up to its
    first colon, provided the third segment is [models] and that text is
    not empty.  For a POST to another provider it is the truthy [model]
    property of the body parsed as JSON.  Everything else gives
    ["unknown"]. *)
Theorem logged_model
    (JSON_parse : string -> thrown json)
    (upstream : nat -> Request -> FetchOutcome) (startTime logTime : Z)
    (invalidHeaderValue : string -> option string) (usedBodyMessage : string)
    (request : Request) (env : Env) (service : string) :
  let served := fetch JSON_parse upstream startTime logTime invalidHeaderValue
      usedBodyMessage request env in
  let segments := Url.pathSegments (url request) in
  routed request service ->
  LOGS env = true ->
  exists model error code,
    logged served
      = [mkDataPoint [service] [JStr service; model; error]
           [code; logTime - startTime]]
    /\ (method request <> "POST" -> model = UNKNOWN)
    /\ (method request = "POST" -> service = "gemini" ->
        model = match segments !! 2%nat, segments !! 3%nat with
                | Some seg2, Some seg3 =>
                    if String.eqb seg2 "models"
                       && JsString.truthy (beforeColon seg3)
                    then JStr (beforeColon seg3)
                    else UNKNOWN
                | _, _ => UNKNOWN
                end)
    /\ (method request = "POST" -> service <> "gemini" ->
        model = match body request with
                | Some text => bodyModel (JSON_parse text)
                | None => UNKNOWN
                end).
Proof.
  intros served segments [Hhead Hroute] Hlogs. subst served segments.
  pose proof (segment_truthy _ _ Hhead) as Hservice.
  unfold fetch.
  destruct (Url.pathSegments (url request)) as [|s segments] eqn:Hseg;
    [done|]. injection Hhead as ->.
  rewrite Hroute, Hlogs. cbn [negb].
  set (model := extractModel JSON_parse request env service
                  (service :: segments)).
  assert (Hlog : forall r error,
            logRequest startTime logTime env service model r error
            = [mkDataPoint [service]
                 [JStr service; model;
                  match error with
                  | Some message => JStr message
                  | None => JNull
                  end]
                 [status r; logTime - startTime]]).
  { intros r error. apply logRequest_written; [done..|].
    apply extractModel_truthy. }
  assert (Hrule :
    (method request <> "POST" -> model = UNKNOWN)
    /\ (method request = "POST" -> service = "gemini" ->
        model = match (service :: segments) !! 2%nat,
                      (service :: segments) !! 3%nat with
                | Some seg2, Some seg3 =>
                    if String.eqb seg2 "models"
                       && JsString.truthy (beforeColon seg3)
                    then JStr (beforeColon seg3)
                    else UNKNOWN
                | _, _ => UNKNOWN
                end)
    /\ (method request = "POST" -> service <> "gemini" ->
        model = match body request with
                | Some text => bodyModel (JSON_parse text)
                | None => UNKNOWN
                end)).
  { subst model. unfold extractModel. rewrite Hlogs. cbn [andb].
    split_and!.
    - intros Hmethod. by rewrite (proj2 (String.eqb_neq _ _) Hmethod).
    - intros -> ->. rewrite !String.eqb_refl.
      destruct segments as [|s1 [|s2 [|s3 rest]]]; try done.
      cbn [lookup list_lookup]. simpl.
      destruct (String.eqb s2 "models"); [|done].
      pose proof (split_colon_head s3) as Hsplit.
      destruct (JsString.split ":" s3) as [|name names]; [done|].
      simpl in Hsplit. injection Hsplit as ->. cbn [andb].
      by destruct (JsString.truthy (beforeColon s3)).
    - intros -> Hother. rewrite String.eqb_refl.
      rewrite (proj2 (String.eqb_neq _ _) Hother).
      unfold bodyModel.
      destruct (body request) as [text|]; [|done].
      destruct (JSON_parse text) as [[| | | |items|props]|message];
        try done.
      unfold Js.get_property.
      destruct (List.find _ props) as [[key v]|]; [|done]. simpl.
      by destruct (Js.truthy v). }
  destruct (result (handleRequestWithRotation JSON_parse upstream
      invalidHeaderValue usedBodyMessage request
                      service env (url request))) as [r|message];
    cbn [logged]; rewrite Hlog; eauto.
Qed.

Lemma logged_model_witness :
  let env := Sample.config true None [] in
  let generate :=
    Sample.post "/gemini/v1beta/models/gemini-pro:generateContent" "sk-user"
      "{}" in
  let chat :=
    Sample.post "/openai/v1/chat/completions" "sk-user" Sample.chat_body in
  routed generate "gemini"
  /\ routed chat "openai"
  /\ (exists model error code,
        logged (fetch Sample.parse Sample.always200 0 30 Sample.invalid
            Sample.used generate env)
          = [mkDataPoint ["gemini"] [JStr "gemini"; model; error] [code; 30]]
        /\ model = JStr "gemini-pro")
  /\ (exists model error code,
        logged (fetch Sample.parse Sample.always200 0 30 Sample.invalid
            Sample.used chat env)
          = [mkDataPoint ["openai"] [JStr "openai"; model; error] [code; 30]]
        /\ model = JStr "gpt-4o").
Proof.
  intros env generate chat.
  assert (Hgenerate : routed generate "gemini") by (split; evaluated).
  assert (Hchat : routed chat "openai") by (split; evaluated).
  destruct (logged_model Sample.parse Sample.always200 0 30 Sample.invalid
      Sample.used generate env
              "gemini" Hgenerate eq_refl)
    as (model & error & code & Hlog & _ & Hgemini & _).
  destruct (logged_model Sample.parse Sample.always200 0 30 Sample.invalid
      Sample.used chat env
              "openai" Hchat eq_refl)
    as (model' & error' & code' & Hlog' & _ & _ & Hbody).
  split; [exact Hgenerate|]. split; [exact Hchat|]. split.
  - exists model, error, code.
    split; [exact Hlog | exact (Hgemini eq_refl eq_refl)].
  - exists model', error', code'.
    split; [exact Hlog' | exact (Hbody eq_refl ltac:(discriminate))].
Defined.

(** C9 as stated fails for gemini: a GET, or a POST whose [models]
    segment is not the third one, is recorded with the model ["unknown"]
    although a segment follows [models]. *)
Lemma gemini_model_needs_post_and_position :
  let env := Sample.config true None [] in
  let listing := Sample.get "/gemini/v1beta/models/gemini-pro" "sk-user" in
  let short :=
    Sample.post "/gemini/models/gemini-pro:generateContent" "sk-user" "{}" in
  spec_geminiModel (Url.pathSegments (url listing)) = Some "gemini-pro"
  /\ blobs <$> logged (fetch Sample.parse Sample.always200 0 30 Sample.invalid
      Sample.used listing env)
     = [[JStr "gemini"; JStr "unknown"; JNull]]
  /\ spec_geminiModel (Url.pathSegments (url short)) = Some "gemini-pro"
  /\ blobs <$> logged (fetch Sample.parse Sample.always200 0 30 Sample.invalid
      Sample.used short env)
     = [[JStr "gemini"; JStr "unknown"; JNull]].
Proof. repeat split; evaluated. Qed.

(** ** Credentials: injection and extraction *)









(** Outer white space in a pool key does not reach the upstream: the key
    read back is another text than the pool's. *)
Lemma injected_key_is_normalised :
  extractApiKey
    (rotationRequest (Sample.get "/claude/v1/messages" "M") "claude"
       (Sample.gateway "/v1/messages") " k1 ") "claude" = Some "k1"
  /\ extractApiKey
       (rotationRequest (Sample.get "/openai/v1/models" "M") "openai"
          (Sample.gateway "/v1/models") " ") "openai" = None.
Proof. split; reflexivity. Qed.




(** ** Preflight *)

(** X3. An [OPTIONS] request on a routed path is answered 204 with the
    permissive CORS headers and no body; no upstream call is made and the
    counter is not touched, whatever credential it carries; with [LOGS]
    bound it is recorded with status 204 and the model ["unknown"]. *)
Theorem options_preflight
    (JSON_parse : string -> thrown json)
    (upstream : nat -> Request -> FetchOutcome) (startTime logTime : Z)
    (invalidHeaderValue : string -> option string) (usedBodyMessage : string)
    (request : Request) (env : Env) (service : string) :
  let served := fetch JSON_parse upstream startTime logTime invalidHeaderValue
      usedBodyMessage request env in
  routed request service ->
  method request = "OPTIONS" ->
  response served = handleOptions
  /\ status (response served) = 204
  /\ responseBody (response served) = None
  /\ permissiveCors (response served)
  /\ upstreamCalls served = []
  /\ databaseAfter served = DB env
  /\ logged served
     = if LOGS env
       then [mkDataPoint [service] [JStr service; UNKNOWN; JNull]
               [204; logTime - startTime]]
       else [].
Proof.
  intros served [Hhead Hroute] Hmethod. subst served.
  pose proof (segment_truthy _ _ Hhead) as Hservice.
  unfold fetch.
  destruct (Url.pathSegments (url request)) as [|s segments]; [done|].
  injection Hhead as ->. rewrite Hroute. cbn [negb].
  unfold handleRequestWithRotation, extractModel. rewrite Hmethod.
  cbn [String.eqb Ascii.eqb andb result calls database response
       upstreamCalls databaseAfter logged].
  rewrite andb_false_r.
  split_and!; try done.
  destruct (LOGS env) eqn:Hlogs; [|done].
  by apply (logRequest_written startTime logTime env service _ handleOptions
              None).
Qed.

Lemma options_preflight_witness :
  let request :=
    mkRequest "OPTIONS" (Sample.gateway "/openai/v1/chat/completions")
      (Sample.bearer "M") None in
  let served :=
    fetch Sample.parse Sample.always200 0 30 Sample.invalid Sample.used request
        Sample.rotating in
  status (response served) = 204
  /\ upstreamCalls served = []
  /\ databaseAfter served = DB Sample.rotating.
Proof.
  intros request served.
  assert (Hrouted : routed request "openai") by (split; evaluated).
  destruct (options_preflight Sample.parse Sample.always200 0 30 Sample.invalid
      Sample.used request
              Sample.rotating "openai" Hrouted eq_refl)
    as (_ & Hstatus & _ & _ & Hcalls & Hdb & _).
  split; [exact Hstatus|]. split; [exact Hcalls | exact Hdb].
Defined.

(** ** More on CORS stamping *)

(** X4. [applyCorsHeaders] leaves every header other than the three CORS
    headers with the value it had, and keeps status and body. *)
Theorem applyCorsHeaders_keeps_other_headers (r : Response) (name : string) :
  JsString.toLowerCase ALLOW_ORIGIN <> JsString.toLowerCase name ->
  JsString.toLowerCase ALLOW_METHODS <> JsString.toLowerCase name ->
  JsString.toLowerCase ALLOW_HEADERS <> JsString.toLowerCase name ->
  Headers.get (responseHeaders (applyCorsHeaders r)) name
    = Headers.get (responseHeaders r) name
  /\ status (applyCorsHeaders r) = status r
  /\ responseBody (applyCorsHeaders r) = responseBody r.
Proof.
  intros Ho Hm Hh.
  split; [|split; [apply applyCorsHeaders_status|apply applyCorsHeaders_body]].
  unfold applyCorsHeaders.
  destruct (Headers.has (responseHeaders r) _); [done|].
  cbn [responseHeaders]. by rewrite !Headers_get_set_other.
Qed.

Lemma applyCorsHeaders_keeps_other_headers_witness :
  Headers.get
    (responseHeaders (applyCorsHeaders (Sample.reply 200 "ok")))
    "Content-Type" = Some "application/json".
Proof.
  exact (proj1 (applyCorsHeaders_keeps_other_headers (Sample.reply 200 "ok")
                  "Content-Type" ltac:(vm_compute; discriminate)
                  ltac:(vm_compute; discriminate)
                  ltac:(vm_compute; discriminate))).
Defined.

(** ** More on the retry loop *)

Section LoopRuns.

Variable upstream : nat -> Request -> FetchOutcome.
Variable invalidHeaderValue : string -> option string.
Variable usedBodyMessage : string.
Variables (request : Request) (service : string) (url : URL).
Variable serviceKeys : list json.

Local Abbreviation loop :=
  (rotationLoop upstream invalidHeaderValue usedBodyMessage request service
     url serviceKeys).
Local Abbreviation n := (Z.of_nat (length serviceKeys)).

(** An index inside the pool reads the text of a key of the pool. *)
Lemma element_string_in_pool (j : Z) :
  0 <= j < n ->
  exists v,
    serviceKeys !! Z.to_nat j = Some v
    /\ Js.element_string serviceKeys j = Js.toString v.
Proof.
  intros Hj.
  destruct (lookup_lt_is_Some_2 serviceKeys (Z.to_nat j)) as [v Hv]; [lia|].
  exists v. split; [done|]. unfold Js.element_string.
  rewrite (proj2 (Z.ltb_ge _ _)) by lia. by rewrite Hv.
Qed.

(** Without a body, and with keys that are legal header values, no round
    throws. *)
Lemma requestFailure_none (bodyUsed : bool) (j : Z) :
  body request = None ->
  (forall v, In v serviceKeys ->
     invalidHeaderValue (credentialValue service (Js.toString v)) = None) ->
  0 <= j < n ->
  requestFailure invalidHeaderValue usedBodyMessage bodyUsed request service
    (Js.element_string serviceKeys j) = None.
Proof.
  intros Hbody Hlegal Hj.
  destruct (element_string_in_pool j Hj) as (v & Hv & ->).
  unfold requestFailure. rewrite Hbody, Hlegal; [done|].
  apply list_elem_of_In. by eapply list_elem_of_lookup_2.
Qed.

(** A run in which no round throws and no call ends the loop uses every
    round, and its result is decided by the last answer received. *)
Lemma rotationLoop_inconclusive remaining made i lastResponse :
  0 <= i < n ->
  body request = None ->
  (forall v, In v serviceKeys ->
     invalidHeaderValue (credentialValue service (Js.toString v)) = None) ->
  Forall inconclusive (snd (loop remaining made i lastResponse)) ->
  length (snd (loop remaining made i lastResponse)) = remaining
  /\ fst (loop remaining made i lastResponse)
     = Returned
         (afterRotation
            match last (answers (snd (loop remaining made i lastResponse)))
            with
            | Some r => Some r
            | None => lastResponse
            end).
Proof.
  intros Hi Hbody Hlegal Hall.
  destruct (rotationLoop_stops upstream invalidHeaderValue usedBodyMessage
              request service url serviceKeys remaining made i lastResponse
              Hi)
    as [(Hlen & _ & Hfst)
       |[(c & r & Hlast & Hc & Hr & _)|(_ & _ & message & Hfailure & _)]].
  - done.
  - pose proof (last_Some_elem_of _ _ Hlast) as Hin.
    pose proof (proj1 (Forall_forall _ _) Hall c Hin) as Hinc.
    unfold inconclusive in Hinc. rewrite Hc in Hinc. done.
  - rewrite requestFailure_none in Hfailure; [done..|].
    apply Z.mod_pos_bound. lia.
Qed.

(** Every call of a run that starts inside the pool uses an index inside
    the pool, and carries the key found there. *)
Lemma rotationLoop_in_pool remaining made i lastResponse c :
  0 <= i < Z.of_nat (length serviceKeys) ->
  In c (snd (loop remaining made i lastResponse)) ->
  exists j v,
    keyIndex c = Some j
    /\ 0 <= j < Z.of_nat (length serviceKeys)
    /\ serviceKeys !! Z.to_nat j = Some v
    /\ sent c = rotationRequest request service url (Js.toString v).
Proof.
  intros Hi Hin.
  destruct (rotationLoop_sent _ _ _ _ _ _ _ _ _ _ _ _ Hin)
    as (j & Hj & Hsent).
  apply list_elem_of_In, list_elem_of_lookup_1 in Hin as [k Hk].
  pose proof (rotationLoop_indices _ _ _ _ _ _ _ _ _ _ _ _ _ Hi Hk) as Hidx.
  assert (Hrange : 0 <= j < Z.of_nat (length serviceKeys)).
  { assert (j = (i + Z.of_nat k) mod Z.of_nat (length serviceKeys))
      as -> by congruence.
    apply Z.mod_pos_bound. lia. }
  destruct (element_string_in_pool j Hrange) as (v & Hv & Hkey).
  exists j, v. split; [done|]. split; [exact Hrange|]. split; [done|].
  by rewrite Hsent, Hkey.
Qed.

End LoopRuns.

Lemma answers_inconclusive (calls_ : list UpstreamCall) (r : Response) :
  Forall inconclusive calls_ -> In r (answers calls_) -> status r = 429.
Proof.
  induction calls_ as [|c rest IH]; simpl; [done|].
  intros Hall. apply Forall_cons in Hall as [Hc Hrest].
  unfold inconclusive in Hc.
  destruct (outcome c) as [r0|message]; [|by apply IH].
  intros [<-|Hin]; [done | by apply IH].
Qed.

(** ** The retry loop of the rotation branch, call by call *)



(** C3 fails on a request with a body.  The worker builds the request of
    each round from [request.body] (lines 264-269), and the first [fetch]
    uses that body up: when the first answer is 429, the second round
    throws in [new Request], outside the [try] of line 271, and the
    [catch] of line 303 answers 500.  Every call made was answered 429,
    yet the caller gets neither the status nor the body of the upstream. *)
Theorem rotation_all_rate_limited_body_reuse :
  let request :=
    Sample.post "/openai/v1/chat/completions" "M" Sample.chat_body in
  let served :=
    fetch Sample.parse Sample.always429 0 30 Sample.invalid Sample.used
      request Sample.rotating in
  rotationMode request Sample.rotating "openai"
  /\ rotationLimit Sample.rotating = Num 2
  /\ Forall rateLimited (upstreamCalls served)
  /\ outcome <$> upstreamCalls served
     = [Responded (Sample.reply 429 "Bearer k2")]
  /\ response served
     = textResponse ("轮询配置错误: " +:+ Sample.used) 500
  /\ status (response served) = 500
  /\ responseBody (response served) <> Some "Bearer k2".
Proof.
  intros request served.
  split; [sample_mode|]. split; [evaluated|]. split.
  { vm_compute. repeat econstructor. }
  split; [evaluated|]. split; [evaluated|]. split; [evaluated|].
  vm_compute. discriminate.
Qed.

(** The same happens without a body when a later key of the pool is no
    legal header value: the round that reaches it throws in
    [headers.set]. *)
Lemma rotation_all_rate_limited_illegal_key :
  let newline := String (ascii_of_nat 10) EmptyString in
  let keys := ["k1"; "k" +:+ newline +:+ "2"] in
  let parse (text : string) : thrown json :=
    if String.eqb text "keys" then Returned (JArr (JStr <$> keys))
    else Thrown "Unexpected token" in
  let env :=
    Sample.config false (Some (D1Ready ∅))
      [("MASTER_KEY", "M"); ("OPENAI_KEYS", "keys")] in
  let served :=
    fetch parse Sample.always429 0 30 Sample.invalid Sample.used
      (Sample.get "/openai/v1/models" "M") env in
  keyIndex <$> upstreamCalls served = [Some 0]
  /\ outcome <$> upstreamCalls served
     = [Responded (Sample.reply 429 "Bearer k1")]
  /\ status (response served) = 500.
Proof. repeat split; evaluated. Qed.

(** X20. In rotation mode with a pool, a request with a body is never
    tried with a second key: at most one upstream call is made.  When that
    call fails or is answered with 429 while the limit and the pool allow
    another round, the response is the 500 of the [catch], not the answer
    of the upstream. *)
Theorem rotation_with_body_is_not_retried
    (JSON_parse : string -> thrown json)
    (upstream : nat -> Request -> FetchOutcome) (startTime logTime : Z)
    (invalidHeaderValue : string -> option string) (usedBodyMessage : string)
    (request : Request) (env : Env) (service : string) (keys : list json)
    (l : Z) (text : string) :
  let served :=
    fetch JSON_parse upstream startTime logTime invalidHeaderValue
      usedBodyMessage request env in
  rotationMode request env service ->
  configuredPool JSON_parse env service keys ->
  body request = Some text ->
  (length (upstreamCalls served) <= 1)%nat
  /\ (rotationLimit env = Num l ->
      2 <= l ->
      (2 <= length keys)%nat ->
      forall c,
        upstreamCalls served = [c] ->
        inconclusive c ->
        exists message,
          response served
          = textResponse ("轮询配置错误: " +:+ message) 500).
Proof.
  intros served Hmode Hpool Hbody. subst served.
  destruct (fetch_rotationMode JSON_parse upstream startTime logTime
              invalidHeaderValue usedBodyMessage request env service Hmode)
    as (r & Hr & ->).
  cbn [upstreamCalls response].
  rewrite (rotate_configured _ _ _ _ _ _ _ _ _ Hpool) in Hr |- *.
  destruct (getNextKeyIndex _ _ _) as [[i|message] db] eqn:Hnext;
    cbn [result calls] in Hr |- *.
  2: { split; [simpl; lia|]. intros _ _ _ c Hc. discriminate. }
  injection Hr as <-.
  assert (Hsize : 1 <= Z.of_nat (length keys)).
  { destruct Hpool as (_ & _ & _ & _ & Hkeys).
    destruct keys; [done|]. simpl length. lia. }
  pose proof (getNextKeyIndex_range _ _ _ _ _ Hsize Hnext) as Hi.
  set (remaining := rounds (Math_min (rotationLimit env)
                              (Num (Z.of_nat (length keys))))).
  set (run := rotationLoop upstream invalidHeaderValue usedBodyMessage
                request service (rewriteUrl service (url request)) keys
                remaining O i None).
  assert (Hone : (length (snd run) <= 1)%nat).
  { destruct (snd run !! 1%nat) as [c|] eqn:Hc.
    - destruct (rotationLoop_call _ _ _ _ _ _ _ _ _ _ _ _ _ Hi Hc)
        as (_ & _ & _ & Hfailure).
      unfold requestFailure in Hfailure. rewrite Hbody in Hfailure.
      cbn in Hfailure. by destruct (invalidHeaderValue _).
    - apply lookup_ge_None in Hc. lia. }
  split; [exact Hone|].
  intros Hlimit Hl Hkeys c Hc Hinconclusive.
  pose proof (rotationLoop_stops upstream invalidHeaderValue usedBodyMessage
                request service (rewriteUrl service (url request)) keys
                remaining O i None Hi) as Hstops.
  cbv zeta in Hstops. fold run in Hstops.
  assert (Hremaining : (2 <= remaining)%nat).
  { subst remaining. rewrite Hlimit. cbn [Math_min rounds]. lia. }
  destruct Hstops
    as [(Hlen & _)
       |[(c' & r & Hlast & Hc' & Hr & _)|(_ & _ & message & _ & Hfst)]].
  - lia.
  - rewrite Hc in Hlast. injection Hlast as <-.
    unfold inconclusive in Hinconclusive. by rewrite Hc' in Hinconclusive.
  - exists message. by rewrite Hfst.
Qed.

Lemma rotation_with_body_is_not_retried_witness :
  let request :=
    Sample.post "/openai/v1/chat/completions" "M" Sample.chat_body in
  let served :=
    fetch Sample.parse Sample.second200 0 30 Sample.invalid Sample.used
      request Sample.rotating in
  (length (upstreamCalls served) <= 1)%nat
  /\ (exists message,
        response served = textResponse ("轮询配置错误: " +:+ message) 500)
  /\ status (response served) = 500.
Proof.
  intros request served.
  assert (Hmode : rotationMode request Sample.rotating "openai")
    by sample_mode.
  assert (Hpool : configuredPool Sample.parse Sample.rotating "openai"
                    (JStr <$> Sample.pool)) by sample_pool.
  destruct (rotation_with_body_is_not_retried Sample.parse Sample.second200
              0 30 Sample.invalid Sample.used request Sample.rotating
              "openai" (JStr <$> Sample.pool) 2 Sample.chat_body Hmode Hpool
              eq_refl) as (Hone & Hfailed).
  split; [exact Hone|]. split; [|evaluated].
  apply (Hfailed eq_refl ltac:(lia) ltac:(simpl; lia)
           (mkCall (Some 1)
              (rotationRequest request "openai"
                 (rewriteUrl "openai" (url request)) "k2")
              (Responded (Sample.reply 429 "slow down")))).
  - evaluated.
  - reflexivity.
Defined.

(** X5. In rotation mode with a pool whose keys are legal header values,
    a limit [l] and a counter that advances, for a request without a body:
    when every call fails or is answered with 429, exactly
    [min l poolSize] calls are made (none for a limit below 1); the
    response is the last answer received, stamped, and the text of
    exhaustion with status 429 when every call failed. *)
Theorem rotation_exhausted
    (JSON_parse : string -> thrown json)
    (upstream : nat -> Request -> FetchOutcome) (startTime logTime : Z)
    (invalidHeaderValue : string -> option string) (usedBodyMessage : string)
    (request : Request) (env : Env) (service : string) (keys : list json)
    (l i0 : Z) (db : option D1) :
  let served :=
    fetch JSON_parse upstream startTime logTime invalidHeaderValue
      usedBodyMessage request env in
  rotationMode request env service ->
  configuredPool JSON_parse env service keys ->
  rotationLimit env = Num l ->
  getNextKeyIndex (DB env) service (Z.of_nat (length keys))
    = (Returned i0, db) ->
  body request = None ->
  (forall v, In v keys ->
     invalidHeaderValue (credentialValue service (Js.toString v)) = None) ->
  Forall inconclusive (upstreamCalls served) ->
  length (upstreamCalls served)
    = Z.to_nat (Z.min l (Z.of_nat (length keys)))
  /\ response served
     = match last (answers (upstreamCalls served)) with
       | Some r => applyCorsHeaders r
       | None => textResponse EXHAUSTED 429
       end
  /\ status (response served) = 429.
Proof.
  intros served Hmode Hpool Hlimit Hnext Hbody Hlegal. subst served.
  destruct (fetch_rotationMode JSON_parse upstream startTime logTime
              invalidHeaderValue usedBodyMessage request env service Hmode)
    as (r & Hr & ->).
  cbn [upstreamCalls response].
  assert (Hsize : 1 <= Z.of_nat (length keys)).
  { destruct Hpool as (_ & _ & _ & _ & Hkeys).
    destruct keys; [done|]. simpl length. lia. }
  pose proof (getNextKeyIndex_range _ _ _ _ _ Hsize Hnext) as Hi0.
  rewrite (rotate_configured _ _ _ _ _ _ _ _ _ Hpool), Hnext, Hlimit
    in Hr |- *.
  cbn [result calls Math_min rounds] in Hr |- *. injection Hr as <-.
  intros Hall.
  destruct (rotationLoop_inconclusive _ _ _ _ _ _ _ _ _ _ _ Hi0 Hbody Hlegal
              Hall) as [Hlen Hfinal].
  split; [exact Hlen|]. rewrite Hfinal. cbn [caught].
  destruct (last (answers _)) as [r|] eqn:Hlast; [|done].
  assert (H429 : status r = 429).
  { apply (answers_inconclusive _ _ Hall).
    apply list_elem_of_In. by apply last_Some_elem_of. }
  cbn [afterRotation]. rewrite (proj2 (Z.eqb_eq _ _) H429).
  by rewrite applyCorsHeaders_status.
Qed.

Lemma rotation_exhausted_witness :
  let request := Sample.get "/openai/v1/models" "M" in
  let down : nat -> Request -> FetchOutcome :=
    fun n _ => match n with
               | O => Responded (Sample.reply 429 "slow down")
               | _ => Failed "connection reset"
               end in
  let env := Sample.config true (Sample.counterAt 0)
               (Sample.settings (Some "7")) in
  let served :=
    fetch Sample.parse down 0 30 Sample.invalid Sample.used request env in
  length (upstreamCalls served) = 3%nat
  /\ status (response served) = 429
  /\ responseBody (response served) = Some "slow down".
Proof.
  intros request down env served.
  assert (Hmode : rotationMode request env "openai") by sample_mode.
  assert (Hpool : configuredPool Sample.parse env "openai"
                    (JStr <$> Sample.pool)) by sample_pool.
  assert (Hnext : getNextKeyIndex (DB env) "openai"
                    (Z.of_nat (length (JStr <$> Sample.pool)))
                  = (Returned 0, Sample.counterAt 1)) by evaluated.
  assert (Hlegal : forall v, In v (JStr <$> Sample.pool) ->
            Sample.invalid (credentialValue "openai" (Js.toString v)) = None).
  { intros v Hv. vm_compute in Hv. by destruct_or!; subst v. }
  assert (Hall : Forall inconclusive (upstreamCalls served)).
  { vm_compute. repeat constructor. }
  destruct (rotation_exhausted Sample.parse down 0 30 Sample.invalid
              Sample.used request env "openai" (JStr <$> Sample.pool) 7 0
              (Sample.counterAt 1) Hmode Hpool eq_refl Hnext eq_refl Hlegal
              Hall) as (Hlen & Hresponse & Hstatus).
  split; [exact Hlen|]. split; [exact Hstatus|]. evaluated.
Defined.

(** X6. In rotation mode with a pool, every upstream call uses an index
    inside the pool and carries the key found at that index, whatever the
    counter table holds and whatever the limit is. *)
Theorem rotation_calls_in_pool
    (JSON_parse : string -> thrown json)
    (upstream : nat -> Request -> FetchOutcome) (startTime logTime : Z)
    (invalidHeaderValue : string -> option string) (usedBodyMessage : string)
    (request : Request) (env : Env) (service : string) (keys : list json)
    (c : UpstreamCall) :
  let served := fetch JSON_parse upstream startTime logTime invalidHeaderValue
      usedBodyMessage request env in
  rotationMode request env service ->
  configuredPool JSON_parse env service keys ->
  In c (upstreamCalls served) ->
  exists j v,
    keyIndex c = Some j
    /\ 0 <= j < Z.of_nat (length keys)
    /\ keys !! Z.to_nat j = Some v
    /\ sent c = rotationRequest request service
                  (rewriteUrl service (url request)) (Js.toString v).
Proof.
  intros served Hmode Hpool. subst served.
  destruct (fetch_rotationMode JSON_parse upstream startTime logTime
      invalidHeaderValue usedBodyMessage
              request env service Hmode) as (r & Hr & ->).
  cbn [upstreamCalls].
  rewrite (rotate_configured _ _ _ _ _ _ _ _ _ Hpool).
  destruct (getNextKeyIndex _ _ _) as [[i|message] db] eqn:Hnext;
    cbn [calls]; [|done].
  assert (Hsize : 1 <= Z.of_nat (length keys)).
  { destruct Hpool as (_ & _ & _ & _ & Hkeys).
    destruct keys; [done|]. simpl length. lia. }
  pose proof (getNextKeyIndex_range _ _ _ _ _ Hsize Hnext) as Hi.
  by apply rotationLoop_in_pool.
Qed.

Lemma rotation_calls_in_pool_witness :
  let request := Sample.get "/openai/v1/models" "M" in
  let served :=
    fetch Sample.parse Sample.always429 0 30 Sample.invalid Sample.used request
        Sample.rotating in
  forallb (fun c => match keyIndex c with
                    | Some j => (0 <=? j) && (j <? 3)
                    | None => false
                    end) (upstreamCalls served) = true
  /\ (upstreamCalls served <> [] ->
      exists c j v,
        In c (upstreamCalls served)
        /\ keyIndex c = Some j
        /\ (JStr <$> Sample.pool) !! Z.to_nat j = Some v).
Proof.
  intros request served. split; [evaluated|]. intros _.
  assert (Hmode : rotationMode request Sample.rotating "openai")
    by sample_mode.
  assert (Hpool : configuredPool Sample.parse Sample.rotating "openai"
                    (JStr <$> Sample.pool)) by sample_pool.
  assert (Hin : exists c, In c (upstreamCalls served)).
  { vm_compute. eexists. left. reflexivity. }
  destruct Hin as [c Hin].
  destruct (rotation_calls_in_pool Sample.parse Sample.always429 0 30
      Sample.invalid Sample.used request
              Sample.rotating "openai" (JStr <$> Sample.pool) c Hmode Hpool
              Hin) as (j & v & Hj & _ & Hv & _).
  exists c, j, v. split; [exact Hin|]. split; [exact Hj | exact Hv].
Defined.

(** ** More on the counter *)

(** X7. One advance over a pool of [n] keys.  A service without a row
    gets the row 1 and index 0.  A row holding [v] inside the pool moves to
    [(v + 1) mod n] and the index handed out is [v] itself, except that the
    last index [n - 1] is replaced by 0. *)
Theorem getNextKeyIndex_step (rows : gmap string Z) (service : string)
    (n : Z) :
  1 <= n ->
  (rows !! service = None ->
   getNextKeyIndex (Some (D1Ready rows)) service n
     = (Returned 0, Some (D1Ready (<[service := 1]> rows))))
  /\ (forall v,
        rows !! service = Some v ->
        0 <= v < n ->
        getNextKeyIndex (Some (D1Ready rows)) service n
          = (Returned (if v =? n - 1 then 0 else v),
             Some (D1Ready (<[service := (v + 1) mod n]> rows)))).
Proof.
  intros Hn. unfold getNextKeyIndex, upsert_next_index, js_rem. split.
  - intros ->. simpl. replace (1 - 1 + n) with (1 * n) by lia.
    by rewrite Z.rem_mul by lia.
  - intros v -> Hv. rewrite (Z.rem_mod_nonneg (v + 1) n) by lia.
    destruct (Z.eqb_spec v (n - 1)) as [->|Hlast].
    + replace (n - 1 + 1) with (1 * n) by lia. rewrite Z.mod_mul by lia.
      simpl. replace (1 - 1 + n) with (1 * n) by lia.
      by rewrite Z.rem_mul by lia.
    + rewrite (Z.mod_small (v + 1) n) by lia.
      rewrite (proj2 (Z.eqb_neq (v + 1) 0)) by lia.
      replace (v + 1 - 1 + n) with (v + 1 * n) by lia.
      rewrite Z.rem_add by nia. by rewrite Z.rem_small by lia.
Qed.

Lemma getNextKeyIndex_step_witness :
  fst (getNextKeyIndex (Sample.counterAt 2) "openai" 3) = Returned 0
  /\ fst (getNextKeyIndex (Sample.counterAt 1) "openai" 3) = Returned 1
  /\ fst (getNextKeyIndex (Sample.counterAt 1) "groq" 3) = Returned 0.
Proof.
  destruct (getNextKeyIndex_step {[ "openai" := 2 ]} "openai" 3 ltac:(lia))
    as [_ Hlast].
  destruct (getNextKeyIndex_step {[ "openai" := 1 ]} "openai" 3 ltac:(lia))
    as [_ Hinner].
  destruct (getNextKeyIndex_step {[ "openai" := 1 ]} "groq" 3 ltac:(lia))
    as [Hfresh _].
  split; [|split].
  - exact (f_equal fst (Hlast 2 ltac:(evaluated) ltac:(lia))).
  - exact (f_equal fst (Hinner 1 ltac:(evaluated) ltac:(lia))).
  - exact (f_equal fst (Hfresh ltac:(evaluated))).
Defined.

Lemma advance_many_app (a b : nat) (db : option D1) (service : string)
    (n : Z) :
  advance_many (a + b) db service n
    = ((fst (advance_many a db service n)
          ++ fst (advance_many b (snd (advance_many a db service n))
                    service n))%list,
       snd (advance_many b (snd (advance_many a db service n)) service n)).
Proof.
  revert db. induction a as [|a IH]; intros db; simpl.
  - by destruct (advance_many b db service n).
  - destruct (getNextKeyIndex db service n) as [r db1].
    rewrite IH. by destruct (advance_many a db1 service n).
Qed.

(** While the row stays below the last index, the advances hand out the
    stored values one after the other. *)
Lemma advance_many_climb (k : nat) (rows : gmap string Z) (service : string)
    (n v : Z) :
  0 <= v ->
  v + Z.of_nat k <= n - 1 ->
  advance_many k (Some (D1Ready (<[service := v]> rows))) service n
    = ((fun j : nat => Returned (v + Z.of_nat j)) <$> seq 0 k,
       Some (D1Ready (<[service := v + Z.of_nat k]> rows))).
Proof.
  revert v. induction k as [|k IH]; intros v Hv Hk.
  - simpl. by rewrite Z.add_0_r.
  - cbn [advance_many].
    destruct (getNextKeyIndex_step (<[service := v]> rows) service n
                ltac:(lia)) as [_ Hstep].
    rewrite (Hstep v (lookup_insert_eq _ _ _) ltac:(lia)).
    rewrite (proj2 (Z.eqb_neq v (n - 1))) by lia.
    rewrite Z.mod_small by lia. rewrite insert_insert_eq.
    rewrite (IH (v + 1)) by lia. f_equal.
    + cbn [seq fmap list_fmap]. f_equal; [by rewrite Z.add_0_r|].
      rewrite <- seq_shift, <- list_fmap_compose.
      apply list_fmap_ext. intros _ j _. simpl. f_equal. lia.
    + do 3 f_equal. lia.
Qed.

(** X8. Over a pool of [m >= 2] keys, [m] advances from a row at 0 hand
    out the indices 0, 1, ..., [m - 2] and then 0 again, and leave the row
    at 0: the last key is never the starting key and the first one is
    twice per period. *)
Theorem counter_period (m : nat) (rows : gmap string Z) (service : string) :
  (2 <= m)%nat ->
  advance_many m (Some (D1Ready (<[service := 0]> rows))) service (Z.of_nat m)
    = ((((fun j : nat => Returned (Z.of_nat j)) <$> seq 0 (m - 1))
          ++ [Returned 0])%list,
       Some (D1Ready (<[service := 0]> rows))).
Proof.
  intros Hm. replace m with ((m - 1) + 1)%nat at 1 by lia.
  rewrite advance_many_app.
  rewrite (advance_many_climb (m - 1) rows service (Z.of_nat m) 0)
    by lia.
  cbn [fst snd advance_many].
  destruct (getNextKeyIndex_step
              (<[service := 0 + Z.of_nat (m - 1)]> rows) service (Z.of_nat m)
              ltac:(lia)) as [_ Hstep].
  rewrite (Hstep (0 + Z.of_nat (m - 1)) (lookup_insert_eq _ _ _) ltac:(lia)).
  rewrite (proj2 (Z.eqb_eq (0 + Z.of_nat (m - 1)) (Z.of_nat m - 1))) by lia.
  replace (0 + Z.of_nat (m - 1) + 1) with (1 * Z.of_nat m) by lia.
  rewrite Z.mod_mul by lia. rewrite insert_insert_eq. cbn [fst snd].
  reflexivity.
Qed.

Lemma counter_period_witness :
  fst (advance_many 4 (Some (D1Ready (<["groq" := 0]> ∅))) "groq" 4)
    = [Returned 0; Returned 1; Returned 2; Returned 0].
Proof.
  exact (f_equal fst (counter_period 4 ∅ "groq" ltac:(lia))).
Defined.

Lemma getNextKeyIndex_never_last_witness :
  2 <= 3
  /\ fst (getNextKeyIndex (Sample.counterAt 7) "openai" 3) <> Returned 2.
Proof.
  split; [lia|]. intros Hlast.
  apply (getNextKeyIndex_never_last {[ "openai" := 7 ]}
           (snd (getNextKeyIndex (Sample.counterAt 7) "openai" 3))
           "openai" 3 2 ltac:(lia)).
  - intros v Hv. vm_compute in Hv. injection Hv as <-. lia.
  - rewrite <- Hlast. by destruct (getNextKeyIndex _ _ _).
  - reflexivity.
Defined.

(** ** Configuration errors of the rotation branch *)

(** X9. In rotation mode with a pool, when the [DB] binding is missing or
    its statement fails, the response is 500 with the cause in the body,
    whatever the retry limit; no upstream call is made and the binding is
    left as it was. *)
Theorem rotation_counter_unavailable
    (JSON_parse : string -> thrown json)
    (upstream : nat -> Request -> FetchOutcome) (startTime logTime : Z)
    (invalidHeaderValue : string -> option string) (usedBodyMessage : string)
    (request : Request) (env : Env) (service : string) (keys : list json) :
  let served := fetch JSON_parse upstream startTime logTime invalidHeaderValue
      usedBodyMessage request env in
  rotationMode request env service ->
  configuredPool JSON_parse env service keys ->
  (forall rows, DB env <> Some (D1Ready rows)) ->
  response served
    = textResponse
        ("轮询配置错误: "
         +:+ match DB env with
             | Some (D1Failing message) => "D1数据库错误: " +:+ message
             | _ => "D1数据库未配置"
             end) 500
  /\ upstreamCalls served = []
  /\ databaseAfter served = DB env.
Proof.
  intros served Hmode Hpool Hdb. subst served.
  destruct (fetch_rotationMode JSON_parse upstream startTime logTime
      invalidHeaderValue usedBodyMessage
              request env service Hmode) as (r & Hr & ->).
  cbn [upstreamCalls response databaseAfter].
  rewrite (rotate_configured _ _ _ _ _ _ _ _ _ Hpool) in Hr |- *.
  unfold getNextKeyIndex in Hr |- *.
  destruct (DB env) as [[message|rows]|] eqn:HDB;
    [| by destruct (Hdb rows) |];
    cbn [result calls database] in *; injection Hr as <-; done.
Qed.

Lemma rotation_counter_unavailable_witness :
  let request := Sample.get "/openai/v1/models" "M" in
  let env := Sample.config true (Some (D1Failing "no such table"))
               (Sample.settings None) in
  let served := fetch Sample.parse Sample.always200 0 30 Sample.invalid
      Sample.used request env in
  status (response served) = 500
  /\ responseBody (response served)
     = Some "轮询配置错误: D1数据库错误: no such table"
  /\ upstreamCalls served = [].
Proof.
  intros request env served.
  assert (Hmode : rotationMode request env "openai") by sample_mode.
  assert (Hpool : configuredPool Sample.parse env "openai"
                    (JStr <$> Sample.pool)) by sample_pool.
  destruct (rotation_counter_unavailable Sample.parse Sample.always200 0 30
      Sample.invalid Sample.used
              request env "openai" (JStr <$> Sample.pool) Hmode Hpool
              ltac:(discriminate)) as (Hresponse & Hcalls & _).
  split; [exact (f_equal status Hresponse)|].
  split; [exact (f_equal responseBody Hresponse) | exact Hcalls].
Defined.

(** X10. In rotation mode, when the pool variable is set and [JSON.parse]
    rejects its text, the response is 500 with the parser's message; no
    upstream call is made and the counter is not advanced. *)
Theorem rotation_pool_unparsable
    (JSON_parse : string -> thrown json)
    (upstream : nat -> Request -> FetchOutcome) (startTime logTime : Z)
    (invalidHeaderValue : string -> option string) (usedBodyMessage : string)
    (request : Request) (env : Env) (service text message : string) :
  let served := fetch JSON_parse upstream startTime logTime invalidHeaderValue
      usedBodyMessage request env in
  rotationMode request env service ->
  truthy_var (vars env !! poolVariable service) = Some text ->
  JSON_parse text = Thrown message ->
  response served = textResponse ("轮询配置错误: " +:+ message) 500
  /\ upstreamCalls served = []
  /\ databaseAfter served = DB env.
Proof.
  intros served Hmode Hvar Hparse. subst served.
  destruct (fetch_rotationMode JSON_parse upstream startTime logTime
      invalidHeaderValue usedBodyMessage
              request env service Hmode) as (r & Hr & ->).
  cbn [upstreamCalls response databaseAfter].
  unfold rotate in Hr |- *. fold (poolVariable service) in Hr |- *.
  rewrite Hvar, Hparse in Hr |- *.
  cbn [result calls database] in *. by injection Hr as <-.
Qed.

Lemma rotation_pool_unparsable_witness :
  let request := Sample.get "/openai/v1/models" "M" in
  let env := Sample.config true (Sample.counterAt 1)
               [("MASTER_KEY", "M"); ("OPENAI_KEYS", "k1,k2,k3")] in
  let served := fetch Sample.parse Sample.always200 0 30 Sample.invalid
      Sample.used request env in
  status (response served) = 500
  /\ responseBody (response served) = Some "轮询配置错误: Unexpected token"
  /\ upstreamCalls served = []
  /\ databaseAfter served = Sample.counterAt 1.
Proof.
  intros request env served.
  assert (Hmode : rotationMode request env "openai") by sample_mode.
  destruct (rotation_pool_unparsable Sample.parse Sample.always200 0 30
      Sample.invalid Sample.used
              request env "openai" "k1,k2,k3" "Unexpected token" Hmode
              ltac:(evaluated) ltac:(evaluated))
    as (Hresponse & Hcalls & Hdb).
  split; [exact (f_equal status Hresponse)|].
  split; [exact (f_equal responseBody Hresponse)|].
  split; [exact Hcalls | exact Hdb].
Defined.

(** ** The counter across a request *)

(** An advance keeps the kind of the binding and the rows of the other
    services. *)
Lemma getNextKeyIndex_other_rows (db : option D1) (service : string) (n : Z) :
  match db with
  | Some (D1Ready rows) =>
      exists rows',
        snd (getNextKeyIndex db service n) = Some (D1Ready rows')
        /\ forall other, service <> other -> rows' !! other = rows !! other
  | _ => snd (getNextKeyIndex db service n) = db
  end.
Proof.
  unfold getNextKeyIndex, upsert_next_index.
  destruct db as [[message|rows]|]; try done.
  destruct (rows !! service); eexists; (split; [done|]);
    intros other Hother; by rewrite lookup_insert_ne.
Qed.

(** The database after a request is the one the handler leaves. *)
Lemma fetch_database
    (JSON_parse : string -> thrown json)
    (upstream : nat -> Request -> FetchOutcome) (startTime logTime : Z)
    (invalidHeaderValue : string -> option string) (usedBodyMessage : string)
    (request : Request) (env : Env) :
  databaseAfter (fetch JSON_parse upstream startTime logTime invalidHeaderValue
      usedBodyMessage request env)
  = match Url.pathSegments (url request) with
    | [] => DB env
    | service :: _ =>
        if RouteEntry_truthy (ROUTE_MAP_get service)
        then database (handleRequestWithRotation JSON_parse upstream
            invalidHeaderValue usedBodyMessage request
                         service env (url request))
        else DB env
    end.
Proof.
  unfold fetch. destruct (Url.pathSegments (url request)) as [|s rest]; [done|].
  destruct (RouteEntry_truthy (ROUTE_MAP_get s)); cbn [negb]; [|done].
  by destruct (result _).
Qed.

(** The handler leaves the database as it was, or after one advance for
    its service. *)
Lemma handler_database
    (JSON_parse : string -> thrown json)
    (upstream : nat -> Request -> FetchOutcome)
    (invalidHeaderValue : string -> option string) (usedBodyMessage : string)
    (request : Request) (service : string) (env : Env) (url' : URL) :
  let handled :=
    handleRequestWithRotation JSON_parse upstream invalidHeaderValue
        usedBodyMessage request service env url' in
  database handled = DB env
  \/ exists keys,
       rotationSelected request service env = true
       /\ method request <> "OPTIONS"
       /\ configuredPool JSON_parse env service keys
       /\ database handled
          = snd (getNextKeyIndex (DB env) service (Z.of_nat (length keys))).
Proof.
  intros handled. subst handled. unfold handleRequestWithRotation.
  destruct (String.eqb_spec (method request) "OPTIONS"); [by left|].
  destruct (rotationSelected request service env) eqn:Hsel.
  - destruct (rotate_cases JSON_parse upstream invalidHeaderValue
      usedBodyMessage request service env
                (rewriteUrl service url'))
      as [Hlocal|(keys & i & db & Hpool & Hnext & ->)].
    + destruct (truthy_var (vars env !! poolVariable service))
        as [text|] eqn:Hvar.
      * destruct (JSON_parse text) as [v|message] eqn:Hparse.
        -- assert (Hshape : (exists k keys, v = JArr (k :: keys))
                   \/ match v with JArr (_ :: _) => False | _ => True end).
           { destruct v as [| | | |[|k keys]|]; eauto. }
           destruct Hshape as [(k & keys & ->)|Hno].
           ++ right. exists (k :: keys).
              assert (Hpool : configuredPool JSON_parse env service (k ::
                  keys)).
              { apply truthy_var_Some in Hvar as [Hvar Ht]. by exists text. }
              split; [done|]. split; [done|]. split; [done|].
              rewrite (rotate_configured _ _ _ _ _ _ _ _ _ Hpool).
              by destruct (getNextKeyIndex _ _ _) as [[i|message] db].
           ++ left. rewrite rotate_missing; [done|].
              right. by exists text, v.
        -- left. unfold rotate. fold (poolVariable service).
           by rewrite Hvar, Hparse.
      * left. rewrite rotate_missing; [done | by left].
    + right. exists keys. split; [done|]. split; [done|]. split; [done|].
      cbn [database]. by rewrite Hnext.
  - left. unfold passThrough. by destruct (upstream O _).
Qed.

(** X11. Serving a request never changes the kind of the [DB] binding and
    changes no row of the counter table other than the row of the
    provider named by the path. *)
Theorem fetch_keeps_other_rows
    (JSON_parse : string -> thrown json)
    (upstream : nat -> Request -> FetchOutcome) (startTime logTime : Z)
    (invalidHeaderValue : string -> option string) (usedBodyMessage : string)
    (request : Request) (env : Env) :
  let served := fetch JSON_parse upstream startTime logTime invalidHeaderValue
      usedBodyMessage request env in
  match DB env with
  | Some (D1Ready rows) =>
      exists rows',
        databaseAfter served = Some (D1Ready rows')
        /\ forall other,
             head (Url.pathSegments (url request)) <> Some other ->
             rows' !! other = rows !! other
  | _ => databaseAfter served = DB env
  end.
Proof.
  intros served. subst served. rewrite fetch_database.
  destruct (Url.pathSegments (url request)) as [|service segments] eqn:Hseg.
  { destruct (DB env) as [[message|rows]|]; eauto. }
  destruct (RouteEntry_truthy (ROUTE_MAP_get service)).
  2: { destruct (DB env) as [[message|rows]|]; eauto. }
  destruct (handler_database JSON_parse upstream invalidHeaderValue
      usedBodyMessage request service env
              (url request)) as [->|(keys & _ & _ & _ & ->)].
  { destruct (DB env) as [[message|rows]|]; eauto. }
  pose proof (getNextKeyIndex_other_rows (DB env) service
                (Z.of_nat (length keys))) as Hrows.
  destruct (DB env) as [[message|rows]|]; try done.
  destruct Hrows as (rows' & -> & Hother). exists rows'. split; [done|].
  intros other Hne. apply Hother. simpl in Hne. congruence.
Qed.

(** X12. In rotation mode with a pool, the counter is advanced once per
    request, whatever happens upstream and however many keys are tried. *)
Theorem rotation_advances_counter_once
    (JSON_parse : string -> thrown json)
    (upstream : nat -> Request -> FetchOutcome) (startTime logTime : Z)
    (invalidHeaderValue : string -> option string) (usedBodyMessage : string)
    (request : Request) (env : Env) (service : string) (keys : list json) :
  let served := fetch JSON_parse upstream startTime logTime invalidHeaderValue
      usedBodyMessage request env in
  rotationMode request env service ->
  configuredPool JSON_parse env service keys ->
  databaseAfter served
    = snd (getNextKeyIndex (DB env) service (Z.of_nat (length keys))).
Proof.
  intros served Hmode Hpool. subst served.
  destruct (fetch_rotationMode JSON_parse upstream startTime logTime
      invalidHeaderValue usedBodyMessage
              request env service Hmode) as (r & Hr & ->).
  cbn [databaseAfter]. rewrite (rotate_configured _ _ _ _ _ _ _ _ _ Hpool).
  by destruct (getNextKeyIndex _ _ _) as [[i|message] db].
Qed.

Lemma rotation_advances_counter_once_witness :
  let request := Sample.get "/openai/v1/models" "M" in
  databaseAfter
    (fetch Sample.parse Sample.always429 0 30 Sample.invalid Sample.used
        request Sample.rotating)
    = Sample.counterAt 2
  /\ databaseAfter
       (fetch Sample.parse Sample.always200 0 30 Sample.invalid Sample.used
           request Sample.rotating)
     = Sample.counterAt 2.
Proof.
  intros request.
  assert (Hmode : rotationMode request Sample.rotating "openai")
    by sample_mode.
  assert (Hpool : configuredPool Sample.parse Sample.rotating "openai"
                    (JStr <$> Sample.pool)) by sample_pool.
  assert (Hnext : snd (getNextKeyIndex (DB Sample.rotating) "openai"
                         (Z.of_nat (length (JStr <$> Sample.pool))))
                  = Sample.counterAt 2) by evaluated.
  split.
  - exact (eq_trans
             (rotation_advances_counter_once Sample.parse Sample.always429
                0 30 Sample.invalid Sample.used request Sample.rotating
                    "openai" (JStr <$> Sample.pool)
                Hmode Hpool) Hnext).
  - exact (eq_trans
             (rotation_advances_counter_once Sample.parse Sample.always200
                0 30 Sample.invalid Sample.used request Sample.rotating
                    "openai" (JStr <$> Sample.pool)
                Hmode Hpool) Hnext).
Defined.

(** X13. A request for which rotation is not selected (no master key, or
    another credential than the master key) makes at most one upstream
    call, with the method, headers and body it came with, and leaves the
    counter alone. *)
Theorem unselected_request_is_forwarded_once
    (JSON_parse : string -> thrown json)
    (upstream : nat -> Request -> FetchOutcome) (startTime logTime : Z)
    (invalidHeaderValue : string -> option string) (usedBodyMessage : string)
    (request : Request) (env : Env) :
  let served := fetch JSON_parse upstream startTime logTime invalidHeaderValue
      usedBodyMessage request env in
  (forall service,
      head (Url.pathSegments (url request)) = Some service ->
      rotationSelected request service env = false) ->
  (length (upstreamCalls served) <= 1)%nat
  /\ (forall c, In c (upstreamCalls served) ->
        keyIndex c = None
        /\ method (sent c) = method request
        /\ headers (sent c) = headers request
        /\ body (sent c) = body request)
  /\ databaseAfter served = DB env.
Proof.
  intros served Hsel. subst served. unfold fetch.
  destruct (Url.pathSegments (url request)) as [|service segments].
  { cbn. split; [lia|]. split; [by intros c []|done]. }
  destruct (RouteEntry_truthy (ROUTE_MAP_get service)); cbn [negb].
  2: { cbn. split; [lia|]. split; [by intros c []|done]. }
  unfold handleRequestWithRotation.
  destruct (String.eqb (method request) "OPTIONS").
  { cbn. split; [lia|]. split; [by intros c []|done]. }
  rewrite (Hsel service eq_refl). unfold passThrough.
  destruct (upstream O _) as [r|message]; cbn;
    (split; [lia|]); (split; [|done]); by intros c [<-|[]].
Qed.

Lemma unselected_request_is_forwarded_once_witness :
  let request := Sample.get "/openai/v1/models" "sk-user" in
  let served :=
    fetch Sample.parse Sample.always429 0 30 Sample.invalid Sample.used request
        Sample.rotating in
  (length (upstreamCalls served) <= 1)%nat
  /\ databaseAfter served = DB Sample.rotating.
Proof.
  intros request served.
  destruct (unselected_request_is_forwarded_once Sample.parse
              Sample.always429 0 30 Sample.invalid Sample.used request
                  Sample.rotating)
    as (Hcount & _ & Hdb).
  - intros service _. unfold rotationSelected, extractApiKey.
    destruct (String.eqb service "gemini"); [evaluated|].
    destruct (String.eqb service "claude"); evaluated.
  - split; [exact Hcount | exact Hdb].
Defined.

(** ** The record of a request *)

(** X14. Without the [LOGS] binding nothing is recorded.  With it, a
    request that passes the path check is recorded once, and a record
    always carries the provider named by the path, the status of the
    response that is returned and the time elapsed. *)
Theorem one_record_per_request
    (JSON_parse : string -> thrown json)
    (upstream : nat -> Request -> FetchOutcome) (startTime logTime : Z)
    (invalidHeaderValue : string -> option string) (usedBodyMessage : string)
    (request : Request) (env : Env) :
  let served := fetch JSON_parse upstream startTime logTime invalidHeaderValue
      usedBodyMessage request env in
  (LOGS env = false -> logged served = [])
  /\ (forall service,
        LOGS env = true -> routed request service ->
        length (logged served) = 1%nat)
  /\ (forall dp,
        In dp (logged served) ->
        logged served = [dp]
        /\ doubles dp = [status (response served); logTime - startTime]
        /\ exists service,
             head (Url.pathSegments (url request)) = Some service
             /\ indexes dp = [service]
             /\ head (blobs dp) = Some (JStr service)).
Proof.
  intros served. subst served. unfold fetch.
  destruct (Url.pathSegments (url request)) as [|service segments] eqn:Hseg.
  { cbn. split; [done|]. split; [|by intros dp []].
    intros service _ [Hhead _]. rewrite Hseg in Hhead. discriminate. }
  assert (Hservice : JsString.truthy service = true).
  { apply (segment_truthy (JsString.split "/" (pathname (url request)))).
    unfold Url.pathSegments in Hseg. by rewrite Hseg. }
  destruct (RouteEntry_truthy (ROUTE_MAP_get service)) eqn:Hroute;
    cbn [negb].
  2: { cbn. split; [done|]. split; [|by intros dp []].
       intros s _ [Hhead Hs]. rewrite Hseg in Hhead.
       injection Hhead as <-. congruence. }
  set (model := extractModel JSON_parse request env service
                  (service :: segments)).
  assert (Hmodel : Js.truthy model = true) by apply extractModel_truthy.
  destruct (LOGS env) eqn:Hlogs.
  - destruct (result _) as [r|message]; cbn [logged response];
      rewrite (logRequest_written _ _ _ _ _ _ _ Hlogs Hservice Hmodel);
      (split; [discriminate|]); (split; [done|]);
      intros dp [<-|[]]; (split; [done|]); (split; [done|]);
      by exists service.
  - destruct (result _) as [r|message]; cbn [logged];
      (split; [done|]); (split; [discriminate|]); by intros dp [].
Qed.

(** X15. In pass-through mode, when the transport fails, the response is
    500 with the error's message as its body (a fixed text when the
    message is empty); the one call that was made is not retried, and with
    [LOGS] bound the record carries the message. *)
Theorem passThrough_transport_failure
    (JSON_parse : string -> thrown json)
    (upstream : nat -> Request -> FetchOutcome) (startTime logTime : Z)
    (invalidHeaderValue : string -> option string) (usedBodyMessage : string)
    (request : Request) (env : Env) (service host message : string) :
  let served := fetch JSON_parse upstream startTime logTime invalidHeaderValue
      usedBodyMessage request env in
  passThroughMode request env service host ->
  upstream O
    (mkRequest (method request) (rewriteUrl service (url request))
       (headers request) (body request)) = Failed message ->
  response served
    = textResponse
        (if JsString.truthy message then message
         else "An unexpected error occurred.") 500
  /\ length (upstreamCalls served) = 1%nat
  /\ logged served
     = if LOGS env
       then [mkDataPoint [service]
               [JStr service;
                extractModel JSON_parse request env service
                  (Url.pathSegments (url request));
                JStr message]
               [500; logTime - startTime]]
       else [].
Proof.
  intros served (Hhead & Hhost & Hmethod & Hsel) Hfailed. subst served.
  pose proof (segment_truthy _ _ Hhead) as Hservice.
  unfold fetch.
  destruct (Url.pathSegments (url request)) as [|s segments] eqn:Hseg;
    [done|]. injection Hhead as ->.
  assert (Hroute : RouteEntry_truthy (ROUTE_MAP_get service) = true).
  { unfold ROUTE_MAP_get. rewrite Hhost. cbn [RouteEntry_truthy].
    clear -Hhost. unfold ROUTE_MAP in Hhost.
    apply elem_of_list_to_map_2 in Hhost.
    set_unfold. destruct_or!; simplify_eq; done. }
  rewrite Hroute. cbn [negb]. unfold handleRequestWithRotation.
  destruct (String.eqb_spec (method request) "OPTIONS"); [done|].
  rewrite Hsel. unfold passThrough. rewrite Hfailed.
  cbn [result calls response upstreamCalls logged length].
  split; [done|]. split; [done|].
  destruct (LOGS env) eqn:Hlogs; [|done].
  apply (logRequest_written startTime logTime env service _
           (textResponse _ 500) (Some message)); [done..|].
  apply extractModel_truthy.
Qed.

Lemma passThrough_transport_failure_witness :
  let request := Sample.get "/groq/openai/v1/models" "sk-user" in
  let down : nat -> Request -> FetchOutcome :=
    fun _ _ => Failed "connection refused" in
  let env := Sample.config true None [] in
  let served := fetch Sample.parse down 0 30 Sample.invalid Sample.used request
      env in
  status (response served) = 500
  /\ responseBody (response served) = Some "connection refused"
  /\ length (upstreamCalls served) = 1%nat
  /\ blobs <$> logged served
     = [[JStr "groq"; JStr "unknown"; JStr "connection refused"]].
Proof.
  intros request down env served.
  assert (Hmode : passThroughMode request env "groq" "api.groq.com").
  { split; [evaluated|]. split; [evaluated|].
    split; [discriminate | evaluated]. }
  destruct (passThrough_transport_failure Sample.parse down 0 30 Sample.invalid
      Sample.used request env
              "groq" "api.groq.com" "connection refused" Hmode eq_refl)
    as (Hresponse & Hcalls & Hlog).
  split; [exact (f_equal status Hresponse)|].
  split; [exact (f_equal responseBody Hresponse)|].
  split; [exact Hcalls|]. exact (f_equal (fmap blobs) Hlog).
Defined.

(** *** Witnesses of earlier facts *)

Lemma fetch_rejects_unknown_segment_witness :
  response (fetch Sample.parse Sample.always200 0 30 Sample.invalid Sample.used
              (Sample.get "/OpenAI/v1/models" "M") Sample.rotating)
    = textResponse MALFORMED 325
  /\ upstreamCalls (fetch Sample.parse Sample.always200 0 30 Sample.invalid
      Sample.used
                      (Sample.get "/" "M") Sample.rotating) = [].
Proof.
  split.
  - exact (f_equal response
             (fetch_rejects_unknown_segment Sample.parse Sample.always200
                0 30 Sample.invalid Sample.used (Sample.get "/OpenAI/v1/models"
                    "M") Sample.rotating
                eq_refl)).
  - exact (f_equal upstreamCalls
             (fetch_rejects_unknown_segment Sample.parse Sample.always200
                0 30 Sample.invalid Sample.used (Sample.get "/" "M")
                    Sample.rotating I)).
Defined.

(** ** The credential sent upstream in rotation mode *)


